(** * news_tui: content acquisition and extraction engine

    A shallow embedding of [news_tui/sources/cbc.py], [news_tui/sources/rss.py],
    [news_tui/cache.py] and [news_tui/fetcher.py].

    Conventions of the embedding:
    - Python exceptions are values of [exn]; a computation that may raise
      returns [res A] ([Ok a] or [Raise e]).
    - Values decoded by [json.load]/[json.loads] are [json] values; a Python
      dict is an association list whose keys are distinct, looked up from the
      front.
    - Strings are Stdlib strings (ASCII); [str.split], [str.strip] and the
      regex [\b] are modelled on the ASCII range.
    - Collaborator libraries (BeautifulSoup, feedparser, urljoin,
      html.unescape, hashlib, repr) are Section variables: every theorem
      holds for every implementation of them. *)

Set Warnings "-register-all".
From Stdlib Require Import ZArith Lia String Ascii.
From stdpp Require Import base list gmap strings pretty.
Import ListNotations.
Open Scope string_scope.
Open Scope Z_scope.

(* ------------------------------------------------------------------ *)
(** ** Python runtime: exceptions, results, JSON values, strings        *)
(* ------------------------------------------------------------------ *)

Module Py.

Inductive exn :=
| RequestException   (* requests.RequestException and its subclasses *)
| HTTPError          (* raised by raise_for_status; a RequestException *)
| TypeError
| AttributeError
| KeyError
| JSONDecodeError
| UnicodeDecodeError (* a ValueError, not an IOError *)
| OSError            (* IOError is an alias of OSError *)
| ValueError
| ImportError.

Definition is_request_exception (e : exn) : bool :=
  match e with RequestException | HTTPError => true | _ => false end.

Inductive res (A : Type) :=
| Ok (a : A)
| Raise (e : exn).
Arguments Ok {A} a.
Arguments Raise {A} e.

Definition bind {A B} (m : res A) (k : A -> res B) : res B :=
  match m with Ok a => k a | Raise e => Raise e end.

Notation "x <-- m ;; k" := (bind m (fun x => k))
  (at level 100, m at next level, right associativity).

(** [try body except (predicate) : handler] *)
Definition try_except {A} (m : res A) (catches : exn -> bool) (h : exn -> res A)
  : res A :=
  match m with
  | Ok a => Ok a
  | Raise e => if catches e then h e else Raise e
  end.

Fixpoint mapM {A B} (f : A -> res B) (l : list A) : res (list B) :=
  match l with
  | [] => Ok []
  | x :: l' => y <-- f x ;; ys <-- mapM f l' ;; Ok (y :: ys)
  end.

Inductive json :=
| JNull
| JBool (b : bool)
| JInt (z : Z)
| JStr (s : string)
| JList (l : list json)
| JDict (kvs : list (string * json)).

Fixpoint assoc_get {V} (k : string) (kvs : list (string * V)) : option V :=
  match kvs with
  | [] => None
  | (k', v) :: kvs' => if String.eqb k k' then Some v else assoc_get k kvs'
  end.

(** [d.get(k, default)]: only dicts have [.get]. *)
Definition dict_get (d : json) (k : string) (default : json) : res json :=
  match d with
  | JDict kvs => Ok (match assoc_get k kvs with Some v => v | None => default end)
  | _ => Raise AttributeError
  end.

Definition truthy (v : json) : bool :=
  match v with
  | JNull => false
  | JBool b => b
  | JInt z => negb (z =? 0)
  | JStr s => negb (String.eqb s "")
  | JList l => negb (Nat.eqb (length l) 0)
  | JDict kvs => negb (Nat.eqb (length kvs) 0)
  end.

(** [for x in v]: lists yield their items, strings their characters,
    dicts their keys; anything else is not iterable. *)
Definition py_iter (v : json) : res (list json) :=
  match v with
  | JList l => Ok l
  | JStr s => Ok (map (fun c => JStr (String c EmptyString)) (list_ascii_of_string s))
  | JDict kvs => Ok (map (fun kv => JStr (fst kv)) kvs)
  | _ => Raise TypeError
  end.

(** [str.join]: every item must be a [str]. *)
Definition str_join (sep : string) (items : list json) : res string :=
  parts <-- mapM (fun v => match v with JStr s => Ok s | _ => Raise TypeError end) items ;;
  Ok (String.concat sep parts).

(** Whitespace of [str.split()] / [str.strip()] in the ASCII range. *)
Definition is_space (c : Ascii.ascii) : bool :=
  let n := Ascii.nat_of_ascii c in
  ((9 <=? n) && (n <=? 13))%nat || ((28 <=? n) && (n <=? 32))%nat.

(** [s.split()]: maximal runs of non-whitespace. *)
Fixpoint split_ws_aux (cur : string) (s : string) : list string :=
  match s with
  | EmptyString => if String.eqb cur "" then [] else [cur]
  | String c s' =>
      if is_space c
      then (if String.eqb cur "" then [] else [cur]) ++ split_ws_aux "" s'
      else split_ws_aux (cur ++ String c EmptyString) s'
  end.
Definition split_ws (s : string) : list string := split_ws_aux "" s.

Definition word_count (s : string) : nat := length (split_ws s).

Fixpoint lstrip (s : string) : string :=
  match s with
  | String c s' => if is_space c then lstrip s' else s
  | EmptyString => EmptyString
  end.
Definition rstrip (s : string) : string :=
  string_of_list_ascii
    (rev (list_ascii_of_string (lstrip (string_of_list_ascii
      (rev (list_ascii_of_string s)))))).
Definition strip (s : string) : string := rstrip (lstrip s).

(** [s.split(sep)] for a one-character separator. *)
Fixpoint split_char_aux (sep : Ascii.ascii) (cur : string) (s : string) : list string :=
  match s with
  | EmptyString => [cur]
  | String c s' =>
      if Ascii.eqb c sep then cur :: split_char_aux sep "" s'
      else split_char_aux sep (cur ++ String c EmptyString) s'
  end.
Definition split_char (sep : Ascii.ascii) (s : string) : list string :=
  split_char_aux sep "" s.

(** [s.replace(old, new)] *)
Fixpoint replace_aux (fuel : nat) (old new s : string) : string :=
  match fuel with
  | O => s
  | S fuel' =>
      match s with
      | EmptyString => EmptyString
      | String c s' =>
          if String.prefix old s
          then new ++ replace_aux fuel' old new (substring (String.length old)
                                                   (String.length s) s)
          else String c (replace_aux fuel' old new s')
      end
  end.
Fixpoint interleave (new s : string) : string :=
  match s with
  | EmptyString => new
  | String c s' => new ++ String c (interleave new s')
  end.
Definition replace (s old new : string) : string :=
  if String.eqb old "" then interleave new s
  else replace_aux (String.length s) old new s.

Definition lower_ascii (c : Ascii.ascii) : Ascii.ascii :=
  let n := Ascii.nat_of_ascii c in
  if ((65 <=? n) && (n <=? 90))%nat then Ascii.ascii_of_nat (n + 32) else c.
Definition lower (s : string) : string :=
  string_of_list_ascii (map lower_ascii (list_ascii_of_string s)).

(** The newline character. *)
Definition NL : string := String "010"%char EmptyString.

End Py.
Import Py.

(* ------------------------------------------------------------------ *)
(** ** config.py                                                        *)
(* ------------------------------------------------------------------ *)

Definition HOME_PAGE_URL := "https://www.cbc.ca/lite".
Definition SECTIONS_PAGE_URL := "https://www.cbc.ca/lite/sections".
Definition DOMAIN_BASE := "https://www.cbc.ca".
Definition MIN_ARTICLE_WORDS : nat := 15.
Definition RETRY_ATTEMPTS : nat := 4.
(** 0.5 s, in milliseconds: the float [0.5] doubles exactly. *)
Definition INITIAL_RETRY_DELAY : Z := 500.

(* ------------------------------------------------------------------ *)
(** ** CBCSource._retryable_fetch                                      *)
(* ------------------------------------------------------------------ *)

Module Fetch.

(** What [self.session.get(url, timeout=timeout)] does on one call:
    it either returns a response or raises. *)
Inductive outcome :=
| Response (status : Z) (body : string)
| Raises (e : exn).

(** Observable effects of the loop: network calls and [time.sleep]. *)
Inductive event :=
| Attempt (n : nat)
| Sleep (ms : Z).

(** [resp.raise_for_status()]: 4xx and 5xx raise [HTTPError]. *)
Definition raise_for_status (status : Z) : res unit :=
  if (400 <=? status) && (status <? 600) then Raise HTTPError else Ok tt.

(** One iteration of the [try] block. *)
Definition get_content (o : outcome) : res string :=
  match o with
  | Response status body => _ <-- raise_for_status status ;; Ok body
  | Raises e => Raise e
  end.

(** [for attempt in range(attempt, attempts + 1)], [fuel] iterations left. *)
Fixpoint loop (session_get : nat -> outcome) (attempts attempt : nat)
    (delay : Z) (fuel : nat) : list event * res (option string) :=
  match fuel with
  | O => ([], Ok None)
  | S fuel' =>
      match get_content (session_get attempt) with
      | Ok body => ([Attempt attempt], Ok (Some body))
      | Raise e =>
          if is_request_exception e then
            if Nat.eqb attempt attempts then ([Attempt attempt], Ok None)
            else
              let '(tr, r) := loop session_get attempts (S attempt) (delay * 2) fuel' in
              (Attempt attempt :: Sleep delay :: tr, r)
          else ([Attempt attempt], Raise e)
      end
  end.

(** [_retryable_fetch(url, attempts=attempts)]; [session_get url n] is what
    the session does on the [n]-th call for [url]. *)
Definition _retryable_fetch (session_get : string -> nat -> outcome)
    (url : string) (attempts : nat) : list event * res (option string) :=
  loop (session_get url) attempts 1 INITIAL_RETRY_DELAY attempts.

(** A transport attempt fails: the call raises a [requests] exception or
    the status makes [raise_for_status] raise. *)
Definition attempt_fails (o : outcome) : Prop :=
  match get_content o with
  | Ok _ => False
  | Raise e => is_request_exception e = true
  end.

(** The trace the spec describes: attempts [1..n], and before each retry a
    sleep that starts at 0.5 s and doubles. *)
Fixpoint backoff_trace_from (k : nat) (delay : Z) (remaining : nat) : list event :=
  match remaining with
  | O => []
  | S O => [Attempt k]
  | S r => Attempt k :: Sleep delay :: backoff_trace_from (S k) (2 * delay) r
  end.
Definition backoff_trace (n : nat) : list event := backoff_trace_from 1 500 n.

Definition attempts_made (tr : list event) : nat :=
  length (List.filter (fun ev => match ev with Attempt _ => true | _ => false end) tr).

Definition sleeps (tr : list event) : list Z :=
  flat_map (fun ev => match ev with Sleep d => [d] | _ => [] end) tr.

End Fetch.

(* ------------------------------------------------------------------ *)
(** ** cache.py                                                         *)
(* ------------------------------------------------------------------ *)

Module Cache.

(** Python values handed to [Cache.set]. [PObject] is any value [json.dump]
    cannot serialise (e.g. a dataclass instance). *)
Inductive pyval :=
| PNone
| PBool (b : bool)
| PInt (z : Z)
| PStr (s : string)
| PList (l : list pyval)
| PTuple (l : list pyval)
| PDict (kvs : list (pyval * pyval))
| PObject.

(** [sys.get_int_max_str_digits()]: CPython's default limit on the number
    of decimal digits in a conversion between [int] and [str]. *)
Definition INT_MAX_STR_DIGITS : Z := 4300.

(** [str(z)] and [int(digits)] succeed: [|z|] has at most
    [INT_MAX_STR_DIGITS] decimal digits (the sign is not counted); past the
    limit both conversions raise [ValueError]. *)
Definition int_str_ok (z : Z) : bool := Z.abs z <? 10 ^ INT_MAX_STR_DIGITS.

(** [json.dump]'s conversion of a dict key: str, int, bool and None keys
    become strings, any other key is a [TypeError]; an int key is written
    with [int.__repr__], which raises [ValueError] past the digit limit. *)
Definition key_to_json (k : pyval) : res string :=
  match k with
  | PStr s => Ok s
  | PInt z => if int_str_ok z then Ok (pretty z) else Raise ValueError
  | PBool true => Ok "true"
  | PBool false => Ok "false"
  | PNone => Ok "null"
  | _ => Raise TypeError
  end.

(** [json.dump]: the JSON document written (keys as written, in order);
    the encoder walks the value in order and the first failure raises. *)
Fixpoint to_json (v : pyval) : res json :=
  match v with
  | PNone => Ok JNull
  | PBool b => Ok (JBool b)
  | PInt z => if int_str_ok z then Ok (JInt z) else Raise ValueError
  | PStr s => Ok (JStr s)
  | PList l | PTuple l =>
      js <-- mapM to_json l ;; Ok (JList js)
  | PDict kvs =>
      kjs <-- mapM (fun kv => k <-- key_to_json (fst kv) ;; j <-- to_json (snd kv) ;;
                              Ok (k, j)) kvs ;;
      Ok (JDict kjs)
  | PObject => Raise TypeError
  end.

(** Building a dict from decoded pairs: a repeated key keeps its first
    position and its last value. *)
Fixpoint dict_insert (k : string) (v : json) (acc : list (string * json))
  : list (string * json) :=
  match acc with
  | [] => [(k, v)]
  | (k', v') :: acc' => if String.eqb k k' then (k', v) :: acc'
                       else (k', v') :: dict_insert k v acc'
  end.

(** [json.load] of a document: the Python object it builds. *)
Fixpoint json_decode (j : json) : json :=
  match j with
  | JList l => JList (map json_decode l)
  | JDict kvs =>
      JDict (fold_left (fun acc kv => dict_insert (fst kv) (snd kv) acc)
               (map (fun kv => (fst kv, json_decode (snd kv))) kvs) [])
  | _ => j
  end.

(** The Python value of a decoded JSON object. *)
Fixpoint from_json (j : json) : pyval :=
  match j with
  | JNull => PNone
  | JBool b => PBool b
  | JInt z => PInt z
  | JStr s => PStr s
  | JList l => PList (map from_json l)
  | JDict kvs => PDict (map (fun kv => (PStr (fst kv), from_json (snd kv))) kvs)
  end.

(** Contents of a file under the cache directory. *)
Inductive file :=
| FileJson (j : json)   (* a well-formed JSON document *)
| FileInvalidJson       (* not JSON: [json.JSONDecodeError] *)
| FileInvalidUtf8       (* bytes that are not UTF-8: [UnicodeDecodeError] *)
| FileUnreadable.       (* exists, but [open] raises an OSError *)

Record cache_fs := {
  files : gmap string file;
  read_only : gset string   (* paths where [open(path, "w")] raises *)
}.

Record t := { cache_dir : string; ttl : Z }.

Fixpoint keys_distinct (ks : list string) : bool :=
  match ks with
  | [] => true
  | k :: ks' => negb (existsb (String.eqb k) ks') && keys_distinct ks'
  end.

(** Every integer literal of a JSON document is within the digit limit:
    [json.load] converts each with [int(...)], which raises [ValueError]
    (not [json.JSONDecodeError]) on a longer one. *)
Fixpoint json_ints_ok (j : json) : bool :=
  match j with
  | JInt z => int_str_ok z
  | JList l => forallb json_ints_ok l
  | JDict kvs => forallb (fun kv => json_ints_ok (snd kv)) kvs
  | _ => true
  end.

(** A JSON document whose objects have distinct keys: the documents
    [json.load] gives back as they are. *)
Fixpoint json_wf (j : json) : bool :=
  match j with
  | JList l => forallb json_wf l
  | JDict kvs => keys_distinct (map fst kvs) && forallb (fun kv => json_wf (snd kv)) kvs
  | _ => true
  end.

Section CacheOps.
(** [hashlib.sha256(key.encode()).hexdigest()] *)
Variable hexdigest : string -> string.

Definition _get_cache_path (c : t) (key : string) : string :=
  cache_dir c ++ "/" ++ hexdigest key ++ ".json".

Definition json_load (f : file) : res json :=
  match f with
  | FileJson j => if json_ints_ok j then Ok (json_decode j) else Raise ValueError
  | FileInvalidJson => Raise JSONDecodeError
  | FileInvalidUtf8 => Raise UnicodeDecodeError
  | FileUnreadable => Raise OSError
  end.

(** [time.time() - x] for a decoded JSON value [x]. *)
Definition py_sub (now : Z) (x : json) : res Z :=
  match x with
  | JInt z => Ok (now - z)
  | JBool b => Ok (now - (if b then 1 else 0))
  | _ => Raise TypeError
  end.

(** [except (IOError, json.JSONDecodeError)] *)
Definition get_catches (e : exn) : bool :=
  match e with OSError | JSONDecodeError => true | _ => false end.

(** [Cache.get]; [PNone] is the [None] it returns when absent. *)
Definition get (c : t) (fs : cache_fs) (now : Z) (key : string) : res pyval :=
  let cache_path := _get_cache_path c key in
  match files fs !! cache_path with
  | None => Ok PNone
  | Some f =>
      try_except
        (data <-- json_load f ;;
         ts <-- dict_get data "timestamp" (JInt 0) ;;
         age <-- py_sub now ts ;;
         if ttl c <? age then Ok PNone
         else v <-- dict_get data "value" JNull ;; Ok (from_json v))
        get_catches (fun _ => Ok PNone)
  end.

(** [Cache.set]: [open(path, "w")] truncates the file before [json.dump]
    writes; a [TypeError] or [ValueError] from [json.dump] is not caught
    ([except IOError]) and leaves the partially written file behind. *)
Definition set (c : t) (fs : cache_fs) (now : Z) (key : string) (value : pyval)
  : cache_fs * res unit :=
  let cache_path := _get_cache_path c key in
  let data := PDict [(PStr "timestamp", PInt now); (PStr "value", value)] in
  if decide (cache_path ∈ read_only fs) then (fs, Ok tt)
  else
    match to_json data with
    | Ok j => ({| files := <[cache_path := FileJson j]> (files fs);
                 read_only := read_only fs |}, Ok tt)
    | Raise e => ({| files := <[cache_path := FileInvalidJson]> (files fs);
                     read_only := read_only fs |}, Raise e)
    end.

End CacheOps.
End Cache.

(* ------------------------------------------------------------------ *)
(** ** The CBC acquisition path and the cache                          *)
(* ------------------------------------------------------------------ *)

Module Acquire.
Import Fetch Cache.

(** Every [CBCSource] operation obtains its document with
    [self._retryable_fetch(url)]; [CBCSource] holds no cache, so the cache
    files are passed through as they are. *)
Definition cbc_fetch (session_get : string -> nat -> outcome) (fs : cache_fs)
    (url : string) : list event * cache_fs * res (option string) :=
  let '(tr, r) := _retryable_fetch session_get url RETRY_ATTEMPTS in (tr, fs, r).

(** The module-level names of [config.py]: its imports, constants,
    [logger] and functions. *)
Definition config_names : list string :=
  ["annotations"; "json"; "logging"; "os"; "re"; "datetime"; "Any"; "Dict"; "Optional";
   "importlib"; "shutil"; "HOME_PAGE_URL"; "SECTIONS_PAGE_URL"; "DOMAIN_BASE";
   "HTTP_TIMEOUT"; "MIN_ARTICLE_WORDS"; "CONFIG_PATH"; "READ_ARTICLES_FILE";
   "BOOKMARKS_FILE"; "REQUEST_HEADERS"; "RETRY_ATTEMPTS"; "INITIAL_RETRY_DELAY";
   "PLACEHOLDER_PATTERN"; "UI_DEFAULTS"; "logger"; "setup_logging"; "load_read_articles";
   "save_read_articles"; "load_bookmarks"; "save_bookmarks"; "ensure_config_file_exists";
   "load_config"; "save_config"; "Theme"; "DEFAULT_THEMES"; "load_themes";
   "load_theme_name_from_config"; "ensure_themes_are_copied"].

(** [from m import n1, n2, ...] where [module_names] are the names [m]
    defines: a missing name raises [ImportError]. *)
Definition from_import (module_names names : list string) : res unit :=
  if forallb (fun n => existsb (String.eqb n) module_names) names then Ok tt
  else Raise ImportError.

(** Binding keyword arguments to a function whose parameters, none with a
    default, are [params]: an unexpected keyword or a missing argument is a
    [TypeError]. *)
Definition bind_kwargs (params kwargs : list string) : res unit :=
  if forallb (fun k => existsb (String.eqb k) params) kwargs
     && forallb (fun p => existsb (String.eqb p) kwargs) params
  then Ok tt else Raise TypeError.

(** [CBCSource.__init__(self, config)] *)
Definition CBCSource_init_params : list string := ["config"].

(** The claim's requirement on a fetch through the cache: an unexpired entry
    for the url answers without any network request. *)
Definition fronted_by_cache (hexdigest : string -> string) (c : Cache.t)
    (fetch : cache_fs -> string -> list event * cache_fs * res (option string))
    (now : Z) : Prop :=
  forall fs url v,
    get hexdigest c fs now url = Ok v -> v <> PNone ->
    attempts_made (fst (fst (fetch fs url))) = 0%nat.

End Acquire.

(* ------------------------------------------------------------------ *)
(** ** datamodels.py                                                    *)
(* ------------------------------------------------------------------ *)

Record Story := {
  title : string;
  url : string;
  flag : option string;
  summary : option string;
  read : bool;
  bookmarked : bool
}.

Record Section := { section_title : string; section_url : string }.

(* ------------------------------------------------------------------ *)
(** ** sources/cbc.py: module-level helpers                            *)
(* ------------------------------------------------------------------ *)

Module CBC.

(** [d.get(k, default)] on a dict's items. *)
Definition kv_get (kvs : list (string * json)) (k : string) (default : json) : json :=
  match assoc_get k kvs with Some v => v | None => default end.

(** [f(d.get(k, default))] found by walking the items, so that a recursive
    [f] is applied to a sub-term of the dict. *)
Fixpoint kv_apply {B} (f : json -> B) (dflt : B) (k : string)
    (kvs : list (string * json)) : B :=
  match kvs with
  | [] => dflt
  | (k', v) :: kvs' => if String.eqb k k' then f v else kv_apply f dflt k kvs'
  end.

Section Helpers.
(** [urllib.parse.urljoin]; it raises [ValueError] on some malformed URLs. *)
Variable urljoin : string -> string -> res string.

(** [_abs_url(href)] for any Python value [href]. *)
Definition _abs_url_value (href : json) : res string :=
  if negb (truthy href) then Ok ""
  else match href with
       | JStr h =>
           if String.prefix "http://" h || String.prefix "https://" h then Ok h
           else urljoin DOMAIN_BASE h
       | _ => Raise AttributeError
       end.

Definition _abs_url (href : string) : res string := _abs_url_value (JStr href).

Definition is_text_type (v : json) : bool :=
  match v with JStr s => String.eqb s "text" | _ => false end.

(** The [tag_map] entry for a tag, given the joined children [cc] and the
    absolute href [h]; [None] when the tag has no entry. *)
Definition tag_map (tag cc h : string) : option string :=
  if String.eqb tag "p" then Some (strip cc ++ (NL ++ NL))
  else if String.eqb tag "h2" then Some ("## " ++ strip cc ++ (NL ++ NL))
  else if String.eqb tag "h3" then Some ("### " ++ strip cc ++ (NL ++ NL))
  else if String.eqb tag "a" then Some ("[" ++ cc ++ "](" ++ h ++ ")")
  else if String.eqb tag "ul" then Some (cc ++ NL)
  else if String.eqb tag "li" then Some ("- " ++ strip cc ++ NL)
  else if String.eqb tag "blockquote" then
    Some (String.concat "" (map (fun line => "> " ++ line ++ NL)
                               (split_char "010"%char (strip cc))) ++ NL)
  else if String.eqb tag "strong" then Some ("**" ++ cc ++ "**")
  else if String.eqb tag "b" then Some ("**" ++ cc ++ "**")
  else if String.eqb tag "em" then Some ("*" ++ cc ++ "*")
  else if String.eqb tag "i" then Some ("*" ++ cc ++ "*")
  else None.

(** [_parse_json_node_to_markdown(node)]. A text node returns its
    ["content"] as it is (any value); every other dict builds the whole
    [tag_map], so the ["a"] entry's href is computed for every tag. *)
Fixpoint _parse_json_node_to_markdown (node : json) : res json :=
  match node with
  | JDict kvs =>
      let node_type := kv_get kvs "type" JNull in
      let tag := kv_get kvs "tag" JNull in
      if is_text_type node_type then Ok (kv_get kvs "content" (JStr ""))
      else
        child_content <--
          kv_apply (fun content =>
                      match content with
                      | JList cs =>
                          rs <-- mapM _parse_json_node_to_markdown cs ;; str_join "" rs
                      (* characters of a string, keys of a dict: not dicts *)
                      | JStr _ | JDict _ => Ok ""
                      | _ => Raise TypeError
                      end) (Ok "") "content" kvs ;;
        attrs <-- Ok (kv_get kvs "attrs" (JDict [])) ;;
        href <-- dict_get attrs "href" (JStr "") ;;
        h <-- _abs_url_value href ;;
        match tag with
        | JList _ | JDict _ => Raise TypeError   (* unhashable key *)
        | JStr t => Ok (JStr (match tag_map t child_content h with
                              | Some md => md
                              | None => child_content
                              end))
        | _ => Ok (JStr child_content)
        end
  | _ => Ok (JStr "")
  end.

(** [str(v)] inside an f-string; [py_repr] is [repr] of a list or dict. *)
Definition py_str (py_repr : json -> string) (v : json) : string :=
  match v with
  | JStr s => s
  | JNull => "None"
  | JBool true => "True"
  | JBool false => "False"
  | JInt z => pretty z
  | _ => py_repr v
  end.

(** [x in s] for strings. *)
Definition str_contains (needle hay : string) : bool :=
  match String.index 0 needle hay with Some _ => true | None => false end.

(** [x in container] for a decoded JSON container and a string [x]. *)
Definition py_contains (container : json) (x : string) : res bool :=
  match container with
  | JList l => Ok (existsb (fun v => match v with JStr s => String.eqb s x | _ => false end) l)
  | JStr s => Ok (str_contains x s)
  | JDict kvs => Ok (existsb (fun kv => String.eqb (fst kv) x) kvs)
  | _ => Raise TypeError
  end.

Definition is_word_char (c : Ascii.ascii) : bool :=
  let n := Ascii.nat_of_ascii c in
  ((48 <=? n) && (n <=? 57))%nat || ((65 <=? n) && (n <=? 90))%nat ||
  ((97 <=? n) && (n <=? 122))%nat || (n =? 95)%nat.

Definition char_at (s : string) (i : nat) : option Ascii.ascii := String.get i s.

(** [\b] at position [i]. *)
Definition word_boundary (s : string) (i : nat) : bool :=
  let before := match i with
                | O => false
                | S j => match char_at s j with Some c => is_word_char c | None => false end
                end in
  let after := match char_at s i with Some c => is_word_char c | None => false end in
  xorb before after.

Definition PLACEHOLDER_WORDS : list string := ["loading"; "unable to load"; "error"; "retrying"].

(** [PLACEHOLDER_PATTERN.search(text)] for
    [re.compile(r"\b(loading|unable to load|error|retrying)\b", re.I)]. *)
Definition placeholder_search (text : string) : bool :=
  existsb (fun i =>
    existsb (fun w =>
      word_boundary text i &&
      String.eqb (lower (substring i (String.length w) text)) w &&
      (i + String.length w <=? String.length text)%nat &&
      word_boundary text (i + String.length w)) PLACEHOLDER_WORDS)
    (seq 0 (S (String.length text))).

(** [_is_placeholder_text(text)] *)
Definition _is_placeholder_text (text : string) : bool :=
  if String.eqb text "" then true
  else if (word_count text <? MIN_ARTICLE_WORDS)%nat then true
  else if placeholder_search text then true
  else false.

(** [_unique_ordered_stories(items)] *)
Fixpoint unique_from (seen : list string) (items : list Story) : list Story :=
  match items with
  | [] => []
  | s :: items' =>
      if negb (String.eqb (url s) "") && negb (existsb (String.eqb (url s)) seen)
      then s :: unique_from (url s :: seen) items'
      else unique_from seen items'
  end.
Definition _unique_ordered_stories (items : list Story) : list Story :=
  unique_from [] items.

End Helpers.
End CBC.

(* ------------------------------------------------------------------ *)
(** ** sources/cbc.py: CBCSource                                       *)
(* ------------------------------------------------------------------ *)

Module CBCSource.
Import Fetch CBC.

(** What BeautifulSoup yields for one [a[href*='/lite/story/']] anchor:
    [a.get("href", "")], the [span]'s [get_text(strip=True)] if the anchor
    has a span, [a.get_text(" ", strip=True)] and the next [p] sibling's
    [get_text(strip=True)] if there is one. *)
Record story_anchor := {
  a_href : string;
  a_span : option string;
  a_text : string;
  a_next_p : option string
}.

(** What BeautifulSoup yields for an article page: the [.string] of
    [script#__NEXT_DATA__] if that script exists and its string is truthy,
    and [p.get_text(" ", strip=True)] of each [p] under [main] (or under the
    whole document). *)
Record article_page := {
  next_data : option string;
  paragraphs : list string
}.

Definition result (ok : bool) (content : string) : list (string * json) :=
  [("ok", JBool ok); ("content", JStr content)].

Section Source.
Variable urljoin : string -> string -> res string.
Variable session_get : string -> nat -> outcome.
(** [BeautifulSoup(content, "lxml").select("nav a[href], a[href^='/lite']")]
    as [(a.get("href", ""), a.get_text(strip=True))] pairs. *)
Variable select_section_links : string -> res (list (string * string)).
(** [BeautifulSoup(content, "lxml").select("a[href*='/lite/story/']")] *)
Variable select_story_links : string -> res (list story_anchor).
Variable parse_article_page : string -> res article_page.
Variable json_loads : string -> res json.
Variable html_unescape : string -> string.
Variable py_repr : json -> string.

(** [content = self._retryable_fetch(url)] *)
Definition fetch (u : string) : res (option string) :=
  snd (_retryable_fetch session_get u RETRY_ATTEMPTS).

(** [not content] for [Optional[bytes]] *)
Definition no_content (c : option string) : bool :=
  match c with None => true | Some b => String.eqb b "" end.

(** The body of the [for a in soup.select(...)] loop of [get_sections];
    an exception stops the loop and keeps the sections added so far. *)
Fixpoint add_sections (allowed : json) (links : list (string * string))
    (m : list (string * Section)) : list (string * Section) * res unit :=
  match links with
  | [] => (m, Ok tt)
  | (raw_href, text) :: links' =>
      match _abs_url urljoin raw_href with
      | Raise e => (m, Raise e)
      | Ok href =>
          if str_contains "/lite" href && negb (str_contains "/lite/story/" href) then
            let title0 := text in
            if negb (String.eqb title0 "")
               && negb (String.eqb (lower title0) "menu" || String.eqb (lower title0) "search")
               && negb (existsb (fun kv => String.eqb (fst kv) title0) m)
            then
              let keep := if negb (truthy allowed) then Ok true
                          else py_contains allowed title0 in
              match keep with
              | Raise e => (m, Raise e)
              | Ok true =>
                  add_sections allowed links'
                    (m ++ [(title0, {| section_title := title0; section_url := href |})])%list
              | Ok false => add_sections allowed links' m
              end
            else add_sections allowed links' m
          else add_sections allowed links' m
      end
  end.

(** One iteration of [for url in (HOME_PAGE_URL, SECTIONS_PAGE_URL)]. *)
Definition sections_page (allowed : json) (u : string)
    (m : list (string * Section)) : res (list (string * Section)) :=
  content <-- fetch u ;;
  if no_content content then Ok m
  else match content with
       | None => Ok m
       | Some c =>
           match select_section_links c with
           | Raise _ => Ok m            (* except Exception: logged *)
           | Ok links => Ok (fst (add_sections allowed links m))
           end
       end.

(** [CBCSource.get_sections()]; [config] is [self.config]. *)
Definition get_sections (config : json) : res (list Section) :=
  allowed <-- dict_get config "sections" JNull ;;
  m1 <-- sections_page allowed HOME_PAGE_URL [] ;;
  m2 <-- sections_page allowed SECTIONS_PAGE_URL m1 ;;
  Ok ({| section_title := "Home"; section_url := HOME_PAGE_URL |} :: map snd m2).


(** [{b["url"] for b in bookmarks}] *)
Definition bookmark_url (b : json) : res json :=
  match b with
  | JDict kvs =>
      match assoc_get "url" kvs with
      | Some (JList _) | Some (JDict _) => Raise TypeError   (* unhashable *)
      | Some v => Ok v
      | None => Raise KeyError
      end
  | _ => Raise TypeError
  end.

(** The loop body of [get_stories] for one anchor. *)
Definition story_of_anchor (read_articles : list string) (bookmarked_urls : list json)
    (a : story_anchor) : res (option Story) :=
  href <-- _abs_url urljoin (a_href a) ;;
  let fl := a_span a in
  let t := strip (replace (a_text a) (match fl with Some f => f | None => "" end) "") in
  if negb (String.eqb t "") && negb (String.eqb href "") then
    Ok (Some {| title := t; url := href; flag := fl; summary := a_next_p a;
                read := existsb (String.eqb href) read_articles;
                bookmarked := existsb (fun v => match v with
                                                | JStr u => String.eqb u href
                                                | _ => false end) bookmarked_urls |})
  else Ok None.

(** [CBCSource.get_stories(section, read_articles, bookmarks)] *)
Definition get_stories (section : Section) (read_articles : list string)
    (bookmarks : list json) : res (list Story) :=
  bookmarked_urls <-- mapM bookmark_url bookmarks ;;
  content <-- fetch (section_url section) ;;
  match content with
  | Some c =>
      if String.eqb c "" then Ok []
      else try_except
             (anchors <-- select_story_links c ;;
              found <-- mapM (story_of_anchor read_articles bookmarked_urls) anchors ;;
              Ok (_unique_ordered_stories
                    (flat_map (fun o => match o with Some st => [st] | None => [] end) found)))
             (fun _ => true) (fun _ => Ok [])
  | None => Ok []
  end.

(** The structured-tree strategy, inside the inner [try]: the markdown and
    whether it passes [len(full.split()) > MIN_ARTICLE_WORDS]. *)
Definition structured_markdown (script : string) : res string :=
  data <-- json_loads script ;;
  props <-- dict_get data "props" (JDict []) ;;
  page_props <-- dict_get props "pageProps" (JDict []) ;;
  article <-- dict_get page_props "articleData" (JDict []) ;;
  t <-- dict_get article "title" (JStr "No Title") ;;
  body <-- dict_get article "body" (JDict []) ;;
  parsed <-- dict_get body "parsed" (JList []) ;;
  nodes <-- py_iter parsed ;;
  rendered <-- mapM (_parse_json_node_to_markdown urljoin) nodes ;;
  more <-- dict_get article "moreStories" (JList []) ;;
  more_parts <--
    (if truthy more then
       items <-- py_iter more ;;
       lines <-- mapM (fun st => st_title <-- dict_get st "title" JNull ;;
                                 st_url <-- dict_get st "url" JNull ;;
                                 u <-- _abs_url_value urljoin st_url ;;
                                 Ok (JStr ("- [" ++ py_str py_repr st_title ++ "](" ++ u ++ ")" ++ NL)))
                      items ;;
       Ok (JStr (NL ++ NL ++ "---" ++ NL ++ NL ++ "## More Stories" ++ NL ++ NL) :: lines)
     else Ok []) ;;
  joined <-- str_join "" (JStr ("# " ++ py_str py_repr t ++ NL ++ NL) :: rendered ++ more_parts)%list ;;
  Ok (strip (html_unescape joined)).

(** [if json_script and ...: try: ... except Exception: ...]; [Some full]
    when the structured strategy returns. *)
Definition structured_strategy (page : article_page) : option string :=
  match next_data page with
  | None => None
  | Some script =>
      match structured_markdown script with
      | Ok full => if (MIN_ARTICLE_WORDS <? word_count full)%nat then Some full else None
      | Raise _ => None
      end
  end.

(** The paragraph-scrape candidate. *)
Definition paragraph_candidate (page : article_page) : string :=
  strip (String.concat (NL ++ NL) (List.filter (fun p => negb (String.eqb p "")) (paragraphs page))).

Definition paragraph_strategy (page : article_page) : option string :=
  let candidate := paragraph_candidate page in
  if negb (String.eqb candidate "") && negb (_is_placeholder_text candidate)
  then Some candidate else None.

Definition FAILED_TO_FETCH := "Failed to fetch article.".
Definition COULD_NOT_EXTRACT := "Could not extract valid article content.".

(** [CBCSource.get_story_content(story, section)] *)
Definition get_story_content (story : Story) (section : Section)
    : res (list (string * json)) :=
  content_bytes <-- fetch (url story) ;;
  match content_bytes with
  | Some c =>
      if String.eqb c "" then Ok (result false FAILED_TO_FETCH)
      else
        match parse_article_page c with
        | Raise _ => Ok (result false COULD_NOT_EXTRACT)   (* outer except *)
        | Ok page =>
            match structured_strategy page with
            | Some full => Ok (result true full)
            | None =>
                match paragraph_strategy page with
                | Some candidate => Ok (result true candidate)
                | None => Ok (result false COULD_NOT_EXTRACT)
                end
            end
        end
  | None => Ok (result false FAILED_TO_FETCH)
  end.

End Source.
End CBCSource.

(* ------------------------------------------------------------------ *)
(** ** sources/rss.py: RSSSource                                       *)
(* ------------------------------------------------------------------ *)

Module RSSSource.

(** A feedparser entry: each field is [None] when the entry lacks the key;
    [e_content] is the list of content parts, each a dict of strings. *)
Record entry := {
  e_title : option string;
  e_link : option string;
  e_summary : option string;
  e_content : option (list (list (string * string)))
}.

Section Source.
(** [feedparser.parse(url).entries]; feedparser reports malformed feeds in
    its [bozo] flag instead of raising. *)
Variable feedparser_entries : string -> list entry.
(** [BeautifulSoup(html, "lxml").get_text()] *)
Variable html_to_text : string -> string.

(** [entry[key]]: a missing key raises [KeyError]. *)
Definition subscript (o : option string) : res string :=
  match o with Some v => Ok v | None => Raise KeyError end.

(** [CBCSource]'s [{b["url"] for b in bookmarks}] is the same here. *)
Definition get_stories (section : Section) (read_articles : list string)
    (bookmarks : list json) : res (list Story) :=
  let entries := feedparser_entries (section_url section) in
  bookmarked_urls <-- mapM CBCSource.bookmark_url bookmarks ;;
  mapM (fun e =>
          let summary_text := html_to_text (match e_summary e with
                                            | Some s => s | None => "" end) in
          t <-- subscript (e_title e) ;;
          link <-- subscript (e_link e) ;;
          Ok {| title := t; url := link; flag := None; summary := Some summary_text;
                read := existsb (String.eqb link) read_articles;
                bookmarked := existsb (fun v => match v with
                                                | JStr u => String.eqb u link
                                                | _ => false end) bookmarked_urls |})
       entries.

(** [entry.link]: a missing attribute raises [AttributeError]. *)
Definition attribute (o : option string) : res string :=
  match o with Some v => Ok v | None => Raise AttributeError end.

Definition NO_CONTENT := "No content found.".

Fixpoint find_content (story_url : string) (entries : list entry)
    : res (list (string * json)) :=
  match entries with
  | [] => Ok (CBCSource.result false NO_CONTENT)
  | e :: entries' =>
      link <-- attribute (e_link e) ;;
      if String.eqb link story_url then
        match e_content e, e_summary e with
        | Some parts, _ =>
            let values := flat_map (fun c => match assoc_get "value" c with
                                             | Some v => [v] | None => [] end) parts in
            Ok (CBCSource.result true (html_to_text (String.concat NL values)))
        | None, Some sm => Ok (CBCSource.result true (html_to_text sm))
        | None, None => find_content story_url entries'
        end
      else find_content story_url entries'
  end.

(** [RSSSource.get_story_content(story, section)] *)
Definition get_story_content (story : Story) (section : Section)
    : res (list (string * json)) :=
  find_content (url story) (feedparser_entries (section_url section)).

End Source.
End RSSSource.

(* ------------------------------------------------------------------ *)
(** ** The node tree of the structured payload, and the spec's table   *)
(* ------------------------------------------------------------------ *)

Module MarkdownSpec.
Import CBC.

(** A node of [articleData.body.parsed] as the spec describes it:
    [{type, tag, content, attrs:{href}}] with [content] a string for a text
    node and a list of child nodes otherwise. *)
Inductive node :=
| Text (s : string)
| Element (tag : string) (href : option string) (children : list node).

(** The decoded JSON of a node. *)
Fixpoint enc (n : node) : json :=
  match n with
  | Text s => JDict [("type", JStr "text"); ("content", JStr s)]
  | Element t h cs =>
      JDict ([("type", JStr "element"); ("tag", JStr t); ("content", JList (map enc cs))]
             ++ match h with
                | Some u => [("attrs", JDict [("href", JStr u)])]
                | None => []
                end)%list
  end.

(** Every [attrs.href] of a tree. *)
Fixpoint hrefs (n : node) : list string :=
  match n with
  | Text _ => []
  | Element _ h cs =>
      ((match h with Some u => [u] | None => [] end) ++ flat_map hrefs cs)%list
  end.

(** The tag-dispatch table of the spec, for the joined children [cc] and the
    absolute href [h]. A blockquote's prefixed lines each keep their line
    break and one more newline closes the block; an [a] element without an
    href links to the empty target. *)
Definition spec_rule (tag cc h : string) : string :=
  if String.eqb tag "p" then strip cc ++ NL ++ NL
  else if String.eqb tag "h2" then "## " ++ strip cc ++ NL ++ NL
  else if String.eqb tag "h3" then "### " ++ strip cc ++ NL ++ NL
  else if String.eqb tag "a" then "[" ++ cc ++ "](" ++ h ++ ")"
  else if String.eqb tag "ul" then cc ++ NL
  else if String.eqb tag "li" then "- " ++ strip cc ++ NL
  else if String.eqb tag "blockquote" then
    String.concat "" (map (fun line => "> " ++ line ++ NL) (split_char "010"%char (strip cc))) ++ NL
  else if String.eqb tag "strong" then "**" ++ cc ++ "**"
  else if String.eqb tag "b" then "**" ++ cc ++ "**"
  else if String.eqb tag "em" then "*" ++ cc ++ "*"
  else if String.eqb tag "i" then "*" ++ cc ++ "*"
  else cc.

(** The spec's recursive rendering, with [absolute] the absolute form of an
    href. *)
Fixpoint spec_render (absolute : string -> string) (n : node) : string :=
  match n with
  | Text s => s
  | Element t h cs =>
      spec_rule t (String.concat "" (map (spec_render absolute) cs))
        (match h with Some u => absolute u | None => "" end)
  end.

(** The scenario tree [{type:"element", tag:"p", content:[{type:"text",
    content:"Hello"}]}]. *)
Definition scenario_tree : json :=
  JDict [("type", JStr "element"); ("tag", JStr "p");
         ("content", JList [JDict [("type", JStr "text"); ("content", JStr "Hello")]])].

End MarkdownSpec.


(* ------------------------------------------------------------------ *)
(** ** config.py: read articles and bookmarks files                     *)
(* ------------------------------------------------------------------ *)

Module ConfigFiles.
Import Cache.

(** [set(x)] for the Python value of a decoded JSON document, as the list
    of its elements: the items of a list (a list or dict item is
    unhashable), the characters of a string, the keys of a dict; [None],
    booleans and numbers are not iterable. *)
Definition py_set (j : json) : res (list json) :=
  match j with
  | JList l =>
      if existsb (fun v => match v with JList _ | JDict _ => true | _ => false end) l
      then Raise TypeError else Ok l
  | JStr s => Ok (map (fun ch => JStr (String ch EmptyString)) (list_ascii_of_string s))
  | JDict kvs => Ok (map (fun kv => JStr (fst kv)) kvs)
  | _ => Raise TypeError
  end.

(** [load_read_articles()]; [f] is the file at [READ_ARTICLES_FILE]
    ([None] when it does not exist). *)
Definition load_read_articles (f : option file) : res (list json) :=
  match f with
  | None => Ok []
  | Some f => try_except (j <-- json_load f ;; py_set j) get_catches (fun _ => Ok [])
  end.

(** [save_read_articles(read_articles)], with [l] the order in which
    [list(read_articles)] lists the set; [writable] is false when
    [open(path, "w")] raises [IOError] (caught). A list of strings always
    serialises. *)
Definition save_read_articles (f : option file) (writable : bool) (l : list string)
  : option file * res unit :=
  if negb writable then (f, Ok tt)
  else (Some (FileJson (JList (map JStr l))), Ok tt).

(** [load_bookmarks()] *)
Definition load_bookmarks (f : option file) : res json :=
  match f with
  | None => Ok (JList [])
  | Some f => try_except (json_load f) get_catches (fun _ => Ok (JList []))
  end.

(** [save_bookmarks(bookmarks)]: a [TypeError] from [json.dump] is not
    caught and leaves the truncated, partially written file. *)
Definition save_bookmarks (f : option file) (writable : bool) (bookmarks : list pyval)
  : option file * res unit :=
  if negb writable then (f, Ok tt)
  else match to_json (PList bookmarks) with
       | Ok j => (Some (FileJson j), Ok tt)
       | Raise e => (Some FileInvalidJson, Raise e)
       end.

End ConfigFiles.

(* ------------------------------------------------------------------ *)
(** ** fetcher.py: Fetcher.get_stories_for_meta_section                *)
(* ------------------------------------------------------------------ *)

Module FetcherMeta.

(** [section_map[name]] for [section_map = {s.title: s for s in
    all_sections}]: the last section with that title. *)
Definition section_map_get (all_sections : list Section) (name : string) : option Section :=
  fold_left (fun acc s => if String.eqb (section_title s) name then Some s else acc)
    all_sections None.

(** [[section_map[name] for name in section_names if name in section_map]] *)
Definition sections_to_fetch (all_sections : list Section) (section_names : list string)
  : list Section :=
  flat_map (fun name => match section_map_get all_sections name with
                        | Some s => [s]
                        | None => []
                        end) section_names.

(** [for story in stories: if story.url not in seen_urls: ...] *)
Fixpoint add_stories (seen_urls : list string) (stories all_stories : list Story)
  : list Story * list string :=
  match stories with
  | [] => (all_stories, seen_urls)
  | story :: stories' =>
      if existsb (String.eqb (url story)) seen_urls
      then add_stories seen_urls stories' all_stories
      else add_stories (url story :: seen_urls) stories' (all_stories ++ [story])%list
  end.

(** [for future in as_completed(...)]: [future.result()] raising is caught
    and logged. *)
Fixpoint collect (seen_urls : list string) (all_stories : list Story)
    (results : list (res (list Story))) : list Story :=
  match results with
  | [] => all_stories
  | Ok stories :: results' =>
      let '(all_stories', seen_urls') := add_stories seen_urls stories all_stories in
      collect seen_urls' all_stories' results'
  | Raise _ :: results' => collect seen_urls all_stories results'
  end.

Section Meta.
(** [self.get_sections()] *)
Variable get_sections : res (list Section).
(** [self.get_stories(s, read_articles, bookmarks)] *)
Variable get_stories : Section -> res (list Story).
(** The order in which [as_completed] yields the submitted futures. *)
Variable as_completed : list Section -> list Section.

(** [Fetcher.get_stories_for_meta_section(section_names, read_articles,
    bookmarks)] *)
Definition get_stories_for_meta_section (section_names : list string) : res (list Story) :=
  all_sections <-- get_sections ;;
  let to_fetch := sections_to_fetch all_sections section_names in
  Ok (collect [] [] (map get_stories (as_completed to_fetch))).
End Meta.

End FetcherMeta.

(* ================================================================== *)
(** * Properties                                                       *)
(* ================================================================== *)

Module FetchProps.
Import Fetch.

Lemma loop_all_fail (sg : nat -> outcome) (attempts : nat) :
  (forall i, attempt_fails (sg i)) ->
  forall fuel attempt delay,
    (attempt + fuel = S attempts)%nat ->
    loop sg attempts attempt delay fuel = (backoff_trace_from attempt delay fuel, Ok None).
Proof.
  intros Hfail fuel. induction fuel as [|fuel IH]; intros attempt delay Hsum.
  - reflexivity.
  - simpl. specialize (Hfail attempt). unfold attempt_fails in Hfail.
    destruct (get_content (sg attempt)) as [body|e]; [contradiction|].
    rewrite Hfail.
    destruct (Nat.eqb attempt attempts) eqn:Heq.
    + apply Nat.eqb_eq in Heq. assert (fuel = 0%nat) by lia. subst. reflexivity.
    + apply Nat.eqb_neq in Heq.
      rewrite (IH (S attempt) (delay * 2)) by lia.
      destruct fuel as [|fuel']; [lia|].
      rewrite Z.mul_comm. reflexivity.
Qed.

Lemma loop_first_attempt (sg : nat -> outcome) (attempts a : nat) (d : Z) (fuel : nat) :
  (1 <= fuel)%nat ->
  exists rest r, loop sg attempts a d fuel = (Attempt a :: rest, r).
Proof.
  intros Hf. destruct fuel as [|fuel]; [lia|]. simpl.
  destruct (get_content (sg a)) as [body|e]; [eauto|].
  destruct (is_request_exception e); [|eauto].
  destruct (Nat.eqb a attempts); [eauto|].
  destruct (loop sg attempts (S a) (d * 2) fuel). eauto.
Qed.

Lemma attempts_made_from (k : nat) (delay : Z) (n : nat) :
  attempts_made (backoff_trace_from k delay n) = n.
Proof.
  revert k delay. induction n as [|n IH]; intros k delay; [reflexivity|].
  destruct n as [|n']; [reflexivity|].
  change (backoff_trace_from k delay (S (S n')))
    with (Attempt k :: Sleep delay :: backoff_trace_from (S k) (2 * delay) (S n')).
  unfold attempts_made in *. cbn -[backoff_trace_from]. rewrite IH. reflexivity.
Qed.

Lemma sleeps_from (k : nat) (delay : Z) (n : nat) :
  sleeps (backoff_trace_from k delay n) =
  map (fun j => delay * 2 ^ Z.of_nat j) (seq 0 (n - 1)).
Proof.
  revert k delay. induction n as [|n IH]; intros k delay; [reflexivity|].
  destruct n as [|n']; [reflexivity|].
  change (backoff_trace_from k delay (S (S n')))
    with (Attempt k :: Sleep delay :: backoff_trace_from (S k) (2 * delay) (S n')).
  unfold sleeps in *. cbn -[backoff_trace_from]. rewrite IH.
  replace (S (S n') - 1)%nat with (S n') by lia.
  replace (S n' - 1)%nat with n' by lia.
  rewrite <- seq_shift, map_map. simpl. f_equal; [lia|].
  apply map_ext. intros j. rewrite Nat2Z.inj_succ, Z.pow_succ_r by lia. lia.
Qed.

End FetchProps.

Module C3.
Import Fetch FetchProps.

(** C3: when every call of the session fails with a [requests] error (a
    connection error or a 4xx/5xx status), [_retryable_fetch] makes exactly
    [attempts] sequential attempts, sleeps before each retry a delay that
    starts at 500 ms and doubles after each sleep, and returns [None]
    (Ok None: no exception is raised). *)
Theorem retryable_fetch_all_fail (session_get : string -> nat -> outcome)
    (url : string) (attempts : nat) :
  (forall i, attempt_fails (session_get url i)) ->
  _retryable_fetch session_get url attempts = (backoff_trace attempts, Ok None) /\
  attempts_made (backoff_trace attempts) = attempts /\
  sleeps (backoff_trace attempts) =
    map (fun j => INITIAL_RETRY_DELAY * 2 ^ Z.of_nat j) (seq 0 (attempts - 1)).
Proof.
  intros H. split; [|split].
  - unfold _retryable_fetch. apply loop_all_fail; [exact H | lia].
  - apply attempts_made_from.
  - apply sleeps_from.
Qed.

Lemma retryable_fetch_all_fail_witness :
  (forall i, attempt_fails ((fun (_ : string) (_ : nat) => Raises RequestException)
                              "https://www.cbc.ca/lite" i)) /\
  _retryable_fetch (fun _ _ => Raises RequestException) "https://www.cbc.ca/lite"
    RETRY_ATTEMPTS =
  ([Attempt 1; Sleep 500; Attempt 2; Sleep 1000; Attempt 3; Sleep 2000; Attempt 4],
   Ok None).
Proof.
  assert (H : forall i, attempt_fails ((fun (_ : string) (_ : nat) => Raises RequestException)
                                        "https://www.cbc.ca/lite" i))
    by (intros i; reflexivity).
  split; [exact H|].
  exact (proj1 (retryable_fetch_all_fail (fun _ _ => Raises RequestException)
                  "https://www.cbc.ca/lite" RETRY_ATTEMPTS H)).
Defined.

End C3.

Module CacheProps.
Import Cache.

(** Induction on JSON values through their nested lists. *)
Definition json_ind' (P : json -> Prop)
  (Hnull : P JNull) (Hbool : forall b, P (JBool b)) (Hint : forall z, P (JInt z))
  (Hstr : forall s, P (JStr s))
  (Hlist : forall l, Forall P l -> P (JList l))
  (Hdict : forall kvs, Forall (fun kv => P (snd kv)) kvs -> P (JDict kvs))
  : forall j, P j :=
  fix f j :=
    match j with
    | JNull => Hnull
    | JBool b => Hbool b
    | JInt z => Hint z
    | JStr s => Hstr s
    | JList l => Hlist l ((fix g l : Forall P l :=
                             match l with
                             | [] => @List.Forall_nil json P
                             | x :: l' => @List.Forall_cons json P x l' (f x) (g l')
                             end) l)
    | JDict kvs => Hdict kvs ((fix g kvs : Forall (fun kv => P (snd kv)) kvs :=
                             match kvs with
                             | [] => @List.Forall_nil _ _
                             | kv :: kvs' => @List.Forall_cons _ (fun kv => P (snd kv)) kv kvs' (f (snd kv)) (g kvs')
                             end) kvs)
    end.

Lemma dict_insert_fresh (k : string) (v : json) (acc : list (string * json)) :
  existsb (String.eqb k) (map fst acc) = false ->
  dict_insert k v acc = (acc ++ [(k, v)])%list.
Proof.
  induction acc as [|[k' v'] acc IH]; intros H; [reflexivity|].
  simpl in H |- *. apply orb_false_iff in H as [H1 H2].
  rewrite H1. f_equal. apply IH, H2.
Qed.

Lemma fold_dict_insert_distinct (kvs acc : list (string * json)) :
  keys_distinct (map fst (acc ++ kvs)%list) = true ->
  fold_left (fun acc kv => dict_insert (fst kv) (snd kv) acc) kvs acc = (acc ++ kvs)%list.
Proof.
  revert acc. induction kvs as [|[k v] kvs IH]; intros acc H.
  - simpl. rewrite app_nil_r. reflexivity.
  - simpl. rewrite dict_insert_fresh.
    + rewrite IH; [rewrite <- app_assoc; reflexivity|].
      rewrite <- app_assoc. exact H.
    + clear IH. induction acc as [|[k' v'] acc IHa]; [reflexivity|].
      simpl in H |- *. apply andb_true_iff in H as [H1 H2].
      apply negb_true_iff in H1. rewrite map_app in H1. simpl in H1.
      rewrite existsb_app in H1. simpl in H1.
      apply orb_false_iff in H1 as [_ H1]. apply orb_false_iff in H1 as [H1 _].
      rewrite String.eqb_sym in H1. rewrite H1. simpl. apply IHa, H2.
Qed.

Lemma json_decode_wf (j : json) : json_wf j = true -> json_decode j = j.
Proof.
  induction j as [| | | |l IH|kvs IH] using json_ind'; intros Hwf; try reflexivity.
  - simpl in *. f_equal. induction IH as [|x l Hx _ IHl]; [reflexivity|].
    simpl in Hwf. apply andb_true_iff in Hwf as [H1 H2].
    simpl. rewrite Hx by exact H1. f_equal. apply IHl, H2.
  - simpl in Hwf. apply andb_true_iff in Hwf as [Hk Hv].
    assert (Hm : map (fun kv => (fst kv, json_decode (snd kv))) kvs = kvs).
    { clear Hk. induction IH as [|[k v] kvs Hx _ IHl]; [reflexivity|].
      simpl in Hx, Hv |- *. apply andb_true_iff in Hv as [H1 H2].
      rewrite Hx by exact H1. f_equal. apply IHl, H2. }
    simpl. rewrite Hm. f_equal. apply fold_dict_insert_distinct. exact Hk.
Qed.

Lemma to_json_from_json (j : json) :
  to_json (from_json j) = if json_ints_ok j then Ok j else Raise ValueError.
Proof.
  induction j as [| |z| |l IH|kvs IH] using json_ind'; try reflexivity.
  - simpl. assert (H : mapM to_json (map from_json l) =
                       if forallb json_ints_ok l then Ok l else Raise ValueError).
    { induction IH as [|x l Hx _ IHl]; [reflexivity|].
      simpl. rewrite Hx. destruct (json_ints_ok x); simpl; [|reflexivity].
      rewrite IHl. destruct (forallb json_ints_ok l); reflexivity. }
    rewrite H. destruct (forallb json_ints_ok l); reflexivity.
  - simpl. assert (H : mapM (fun kv => k <-- key_to_json (fst kv) ;; j <-- to_json (snd kv) ;;
                                      Ok (k, j))
                          (map (fun kv => (PStr (fst kv), from_json (snd kv))) kvs) =
                       if forallb (fun kv => json_ints_ok (snd kv)) kvs then Ok kvs
                       else Raise ValueError).
    { induction IH as [|[k v] kvs Hx _ IHl]; [reflexivity|].
      simpl in Hx |- *. rewrite Hx. destruct (json_ints_ok v); simpl; [|reflexivity].
      rewrite IHl. destruct (forallb _ kvs); reflexivity. }
    rewrite H. destruct (forallb _ kvs); reflexivity.
Qed.

(** Induction on Python values through their nested lists and dicts. *)
Definition pyval_ind' (P : pyval -> Prop)
  (Hnone : P PNone) (Hbool : forall b, P (PBool b)) (Hint : forall z, P (PInt z))
  (Hstr : forall s, P (PStr s))
  (Hlist : forall l, Forall P l -> P (PList l))
  (Htuple : forall l, Forall P l -> P (PTuple l))
  (Hdict : forall kvs, Forall (fun kv => P (snd kv)) kvs -> P (PDict kvs))
  (Hobj : P PObject)
  : forall v, P v :=
  fix f v :=
    let fl := fix g l : Forall P l :=
                match l with
                | [] => @List.Forall_nil pyval P
                | x :: l' => @List.Forall_cons pyval P x l' (f x) (g l')
                end in
    match v with
    | PNone => Hnone
    | PBool b => Hbool b
    | PInt z => Hint z
    | PStr s => Hstr s
    | PList l => Hlist l (fl l)
    | PTuple l => Htuple l (fl l)
    | PDict kvs => Hdict kvs ((fix g kvs : Forall (fun kv => P (snd kv)) kvs :=
                             match kvs with
                             | [] => @List.Forall_nil _ _
                             | kv :: kvs' => @List.Forall_cons _ (fun kv => P (snd kv)) kv kvs' (f (snd kv)) (g kvs')
                             end) kvs)
    | PObject => Hobj
    end.

Lemma mapM_to_json_ints_ok (l : list pyval) (js : list json) :
  Forall (fun v => forall j, to_json v = Ok j -> json_ints_ok j = true) l ->
  mapM to_json l = Ok js -> forallb json_ints_ok js = true.
Proof.
  intros IH. revert js. induction IH as [|x l Hx _ IHl]; intros js Hm; simpl in Hm.
  - injection Hm as <-. reflexivity.
  - destruct (to_json x) as [y|e] eqn:Hy; simpl in Hm; [|discriminate].
    destruct (mapM to_json l) as [ys|e] eqn:Hys; simpl in Hm; [|discriminate].
    injection Hm as <-. simpl. rewrite (Hx y eq_refl). apply IHl. reflexivity.
Qed.

(** A document [json.dump] wrote has every integer within the digit limit. *)
Lemma to_json_ints_ok (v : pyval) (j : json) : to_json v = Ok j -> json_ints_ok j = true.
Proof.
  revert j. induction v as [| |z| |l IH|l IH|kvs IH|] using pyval_ind'; intros j Hj;
    simpl in Hj; try (injection Hj as <-; reflexivity); try discriminate.
  - destruct (int_str_ok z) eqn:Hz; [injection Hj as <-; exact Hz|discriminate].
  - destruct (mapM to_json l) as [js|e] eqn:Hm; simpl in Hj; [|discriminate].
    injection Hj as <-. exact (mapM_to_json_ints_ok l js IH Hm).
  - destruct (mapM to_json l) as [js|e] eqn:Hm; simpl in Hj; [|discriminate].
    injection Hj as <-. exact (mapM_to_json_ints_ok l js IH Hm).
  - destruct (mapM _ kvs) as [kjs|e] eqn:Hm; simpl in Hj; [|discriminate].
    injection Hj as <-. simpl. revert kjs Hm.
    induction IH as [|[k v] kvs Hx _ IHl]; intros kjs Hm; simpl in Hm.
    + injection Hm as <-. reflexivity.
    + destruct (key_to_json k) as [k'|e]; simpl in Hm; [|discriminate].
      destruct (to_json v) as [y|e] eqn:Hy; simpl in Hm; [|discriminate].
      destruct (mapM _ kvs) as [ys|e]; simpl in Hm; [|discriminate].
      injection Hm as <-. simpl. rewrite (Hx y Hy). apply (IHl ys eq_refl).
Qed.

(** The values [json.dump] accepts among the Python values of JSON
    documents are those the document gives back. *)
Lemma to_json_from_json_ok (j j' : json) : to_json (from_json j) = Ok j' -> j' = j.
Proof.
  rewrite to_json_from_json. destruct (json_ints_ok j); [intros [= ->]; reflexivity|discriminate].
Qed.

Ltac cache_path_cases :=
  unfold get, set; cbn [files read_only];
  repeat match goal with
  | |- context [decide (?x ∈ ?s)] => destruct (decide (x ∈ s)); [contradiction|]
  end.

End CacheProps.

Module C8.
Import Cache CacheProps.

Lemma set_stores (hexdigest : string -> string) (c : t) (fs : cache_fs) (t0 : Z)
    (key : string) (v : pyval) (j : json) :
  int_str_ok t0 = true -> to_json v = Ok j -> _get_cache_path hexdigest c key ∉ read_only fs ->
  set hexdigest c fs t0 key v =
  ({| files := <[_get_cache_path hexdigest c key :=
                   FileJson (JDict [("timestamp", JInt t0); ("value", j)])]> (files fs);
      read_only := read_only fs |}, Ok tt).
Proof.
  intros Ht Hj Hro. unfold set.
  destruct (decide (_get_cache_path hexdigest c key ∈ read_only fs)); [contradiction|].
  simpl. rewrite Ht. simpl. rewrite Hj. reflexivity.
Qed.

Lemma get_after_set (hexdigest : string -> string) (c : t) (fs : cache_fs) (t0 now : Z)
    (key : string) (v : pyval) (j : json) :
  int_str_ok t0 = true -> to_json v = Ok j -> _get_cache_path hexdigest c key ∉ read_only fs ->
  get hexdigest c (fst (set hexdigest c fs t0 key v)) now key =
  Ok (if ttl c <? now - t0 then PNone else from_json (json_decode j)).
Proof.
  intros Ht Hj Hro. rewrite (set_stores hexdigest c fs t0 key v j Ht Hj Hro).
  unfold get. simpl files. rewrite lookup_insert_eq. simpl.
  rewrite Ht, (to_json_ints_ok v j Hj). simpl.
  destruct (ttl c <? now - t0); reflexivity.
Qed.

(** The claim as stated: every JSON-serialisable value comes back equal. *)
Definition roundtrip_law : Prop :=
  forall (hexdigest : string -> string) (c : t) (fs : cache_fs) (t0 now : Z)
         (key : string) (v : pyval) (j : json),
    to_json v = Ok j -> _get_cache_path hexdigest c key ∉ read_only fs ->
    now - t0 <= ttl c ->
    get hexdigest c (fst (set hexdigest c fs t0 key v)) now key = Ok v.

(** C8 (counterexample): [{1: "a"}] is JSON-serialisable, but [json.dump]
    writes its key as the string "1", so [get] returns [{"1": "a"}], which
    is not equal to the value that was set. *)
Lemma roundtrip_law_counterexample : ~ roundtrip_law.
Proof.
  unfold roundtrip_law. intros H.
  specialize (H (fun k => k) {| cache_dir := "/tmp/news"; ttl := 3600 |}
                {| files := ∅; read_only := ∅ |} 0 0 "https://www.cbc.ca/lite"
                (PDict [(PInt 1, PStr "a")]) (JDict [("1", JStr "a")])).
  specialize (H ltac:(vm_compute; reflexivity) ltac:(apply not_elem_of_empty)
                ltac:(simpl; lia)).
  vm_compute in H. discriminate H.
Qed.

(** C8 (amended): after a successful [set(key, v)] at time [t0] (the value
    serialises to the document [j], so no integer in it has more than
    [INT_MAX_STR_DIGITS] digits, the cache file is writable, and the
    [time.time()] stamp is, as every clock value, within the limit), [get(key)]
    at [now] returns the JSON round trip of [v] while [now - t0 <= ttl], and
    [v] itself when [v] is a JSON-native value (the Python value of a JSON
    document with distinct keys); once [now - t0 > ttl] it returns [None],
    while the stored entry stays in place; a later [set(key, v')] overwrites
    it, and [get] then returns the round trip of [v']. *)
Theorem cache_set_get (hexdigest : string -> string) (c : t) (fs : cache_fs)
    (t0 : Z) (key : string) (v : pyval) (j : json) :
  int_str_ok t0 = true -> to_json v = Ok j -> _get_cache_path hexdigest c key ∉ read_only fs ->
  let fs' := fst (set hexdigest c fs t0 key v) in
  (forall now, now - t0 <= ttl c ->
     get hexdigest c fs' now key = Ok (from_json (json_decode j))) /\
  (forall j0, json_wf j0 = true -> v = from_json j0 ->
     forall now, now - t0 <= ttl c -> get hexdigest c fs' now key = Ok v) /\
  (forall now, ttl c < now - t0 -> get hexdigest c fs' now key = Ok PNone) /\
  files fs' !! _get_cache_path hexdigest c key =
    Some (FileJson (JDict [("timestamp", JInt t0); ("value", j)])) /\
  (forall t1 now v' j', int_str_ok t1 = true -> to_json v' = Ok j' -> now - t1 <= ttl c ->
     get hexdigest c (fst (set hexdigest c fs' t1 key v')) now key =
     Ok (from_json (json_decode j'))).
Proof.
  intros Ht Hj Hro fs'. split; [|split; [|split; [|split]]].
  - intros now Hnow. unfold fs'. rewrite (get_after_set _ _ _ _ _ _ _ j Ht Hj Hro).
    destruct (Z.ltb_spec (ttl c) (now - t0)); [lia|reflexivity].
  - intros j0 Hwf -> now Hnow. unfold fs'.
    rewrite (get_after_set _ _ _ _ _ _ _ j Ht Hj Hro).
    destruct (Z.ltb_spec (ttl c) (now - t0)); [lia|].
    apply to_json_from_json_ok in Hj. subst j.
    rewrite json_decode_wf by exact Hwf. reflexivity.
  - intros now Hnow. unfold fs'. rewrite (get_after_set _ _ _ _ _ _ _ j Ht Hj Hro).
    destruct (Z.ltb_spec (ttl c) (now - t0)); [reflexivity|lia].
  - unfold fs'. rewrite (set_stores _ _ _ _ _ _ j Ht Hj Hro). simpl.
    apply lookup_insert_eq.
  - intros t1 now v' j' Ht1 Hj' Hnow.
    assert (Hro' : _get_cache_path hexdigest c key ∉ read_only fs').
    { unfold fs'. rewrite (set_stores _ _ _ _ _ _ j Ht Hj Hro). exact Hro. }
    rewrite (get_after_set _ _ _ _ _ _ _ j' Ht1 Hj' Hro').
    destruct (Z.ltb_spec (ttl c) (now - t1)); [lia|reflexivity].
Qed.

Lemma cache_set_get_witness :
  int_str_ok 0 = true /\ to_json (PStr "story") = Ok (JStr "story") /\
  (_get_cache_path (fun k => k) {| cache_dir := "/tmp/news"; ttl := 3600 |}
    "https://www.cbc.ca/lite" ∉ read_only {| files := ∅; read_only := ∅ |}) /\
  get (fun k => k) {| cache_dir := "/tmp/news"; ttl := 3600 |}
    (fst (set (fun k => k) {| cache_dir := "/tmp/news"; ttl := 3600 |}
            {| files := ∅; read_only := ∅ |} 0 "https://www.cbc.ca/lite" (PStr "story")))
    60 "https://www.cbc.ca/lite" = Ok (PStr "story").
Proof.
  assert (H0 : int_str_ok 0 = true) by reflexivity.
  assert (H1 : to_json (PStr "story") = Ok (JStr "story")) by reflexivity.
  assert (H2 : _get_cache_path (fun k => k) {| cache_dir := "/tmp/news"; ttl := 3600 |}
    "https://www.cbc.ca/lite" ∉ read_only {| files := ∅; read_only := ∅ |})
    by apply not_elem_of_empty.
  split; [exact H0|]. split; [exact H1|]. split; [exact H2|].
  exact (proj1 (cache_set_get (fun k => k) {| cache_dir := "/tmp/news"; ttl := 3600 |}
                  {| files := ∅; read_only := ∅ |} 0 "https://www.cbc.ca/lite"
                  (PStr "story") (JStr "story") H0 H1 H2) 60 ltac:(simpl; lia)).
Defined.

End C8.

Module C9.
Import Cache.

(** C9 (code_bug): [Cache.get] catches only [IOError] and
    [json.JSONDecodeError]. A cache file holding the JSON document [[]]
    makes [data.get] raise [AttributeError], a file holding
    [{"timestamp": "x"}] makes the subtraction raise [TypeError], and a file
    that is not UTF-8 raises [UnicodeDecodeError]; all three escape [get].
    [Cache.set] of a value [json.dump] cannot serialise raises [TypeError]
    and leaves a truncated file. An invalid JSON text and an unreadable
    file, in contrast, are a cache miss. *)
Theorem cache_errors_escape :
  let c := {| cache_dir := "/tmp/news"; ttl := 3600 |} in
  let key := "https://www.cbc.ca/lite" in
  let path := _get_cache_path (fun k => k) c key in
  let fs_with f := {| files := {[path := f]}; read_only := ∅ |} in
  get (fun k => k) c (fs_with (FileJson (JList []))) 0 key = Raise AttributeError /\
  get (fun k => k) c (fs_with (FileJson (JDict [("timestamp", JStr "x")]))) 0 key
    = Raise TypeError /\
  get (fun k => k) c (fs_with FileInvalidUtf8) 0 key = Raise UnicodeDecodeError /\
  get (fun k => k) c (fs_with FileInvalidJson) 0 key = Ok PNone /\
  get (fun k => k) c (fs_with FileUnreadable) 0 key = Ok PNone /\
  set (fun k => k) c {| files := ∅; read_only := ∅ |} 0 key PObject =
    ({| files := {[path := FileInvalidJson]}; read_only := ∅ |}, Raise TypeError).
Proof.
  intros c key path fs_with.
  split; [reflexivity|]. split; [reflexivity|]. split; [reflexivity|].
  split; [reflexivity|]. split; [reflexivity|].
  unfold set. destruct (decide _) as [Hin|Hnin].
  - exfalso. exact (not_elem_of_empty _ Hin).
  - reflexivity.
Qed.

End C9.

Module C1.
Import Fetch FetchProps Cache Acquire.

(** C1 (code_bug): [Fetcher] is meant to put a [Cache] in front of
    [CBCSource], but the wiring fails at every step. [fetcher.py] imports
    [CACHE_DIR] and [CACHE_TTL] from [config.py], which defines neither, so
    the import raises [ImportError]; its [CBCSource(config=..., cache=...)]
    call passes a [cache] keyword that [CBCSource.__init__(self, config)]
    does not take, a [TypeError]; and [CBCSource]'s only fetch path,
    [_retryable_fetch], starts every fetch with a network attempt whatever
    the cache holds, so an unexpired entry for the home page does not
    spare the request. *)
Theorem fetcher_cache_not_wired :
  from_import config_names ["CACHE_DIR"; "CACHE_TTL"] = Raise ImportError /\
  bind_kwargs CBCSource_init_params ["config"; "cache"] = Raise TypeError /\
  (forall (session_get : string -> nat -> outcome) (fs : cache_fs) (url : string),
     exists rest, fst (fst (cbc_fetch session_get fs url)) = Attempt 1 :: rest) /\
  ~ fronted_by_cache (fun k => k) {| cache_dir := "/tmp/news"; ttl := 3600 |}
      (cbc_fetch (fun _ _ => Response 200 "<html></html>")) 0.
Proof.
  split; [reflexivity|]. split; [reflexivity|]. split.
  - intros session_get fs url. unfold cbc_fetch, _retryable_fetch.
    destruct (loop_first_attempt (session_get url) RETRY_ATTEMPTS 1 INITIAL_RETRY_DELAY
                RETRY_ATTEMPTS ltac:(unfold RETRY_ATTEMPTS; lia)) as (rest & r & Heq).
    rewrite Heq. exists rest. reflexivity.
  - unfold fronted_by_cache. intros H.
    specialize (H (fst (set (fun k => k) {| cache_dir := "/tmp/news"; ttl := 3600 |}
                          {| files := ∅; read_only := ∅ |} 0 HOME_PAGE_URL
                          (PStr "<html></html>")))
                  HOME_PAGE_URL (PStr "<html></html>")).
    assert (Hget : get (fun k => k) {| cache_dir := "/tmp/news"; ttl := 3600 |}
              (fst (set (fun k => k) {| cache_dir := "/tmp/news"; ttl := 3600 |}
                      {| files := ∅; read_only := ∅ |} 0 HOME_PAGE_URL (PStr "<html></html>")))
              0 HOME_PAGE_URL = Ok (PStr "<html></html>")).
    { unfold set. destruct (decide _) as [Hin|_].
      - exfalso. exact (not_elem_of_empty _ Hin).
      - reflexivity. }
    specialize (H Hget ltac:(discriminate)). vm_compute in H. discriminate H.
Qed.

End C1.

Module SourceProps.
Import Fetch FetchProps CBC.

(** The session raises only [requests] exceptions, as [requests] does. *)
Definition requests_only (o : outcome) : Prop :=
  match o with Raises e => is_request_exception e = true | Response _ _ => True end.

Lemma loop_no_raise (sg : nat -> outcome) (attempts : nat) :
  (forall i, requests_only (sg i)) ->
  forall fuel attempt delay, exists v, snd (loop sg attempts attempt delay fuel) = Ok v.
Proof.
  intros Hreq fuel. induction fuel as [|fuel IH]; intros attempt delay; simpl; [eauto|].
  specialize (Hreq attempt).
  destruct (sg attempt) as [status body|e]; simpl in *.
  - unfold raise_for_status. destruct ((400 <=? status) && (status <? 600)); simpl; [|eauto].
    destruct (Nat.eqb attempt attempts); [simpl; eauto|].
    destruct (IH (S attempt) (delay * 2)) as [v Hv].
    destruct (loop sg attempts (S attempt) (delay * 2) fuel). simpl in *. eauto.
  - rewrite Hreq. destruct (Nat.eqb attempt attempts); [simpl; eauto|].
    destruct (IH (S attempt) (delay * 2)) as [v Hv].
    destruct (loop sg attempts (S attempt) (delay * 2) fuel). simpl in *. eauto.
Qed.

Lemma fetch_no_raise (session_get : string -> nat -> outcome) (u : string) :
  (forall n, requests_only (session_get u n)) ->
  exists v, CBCSource.fetch session_get u = Ok v.
Proof.
  intros H. unfold CBCSource.fetch, _retryable_fetch. apply loop_no_raise, H.
Qed.

Lemma sections_page_ok urljoin session_get select_section_links allowed u m :
  (forall n, requests_only (session_get u n)) ->
  exists m', CBCSource.sections_page urljoin session_get select_section_links allowed u m
             = Ok m'.
Proof.
  intros H. unfold CBCSource.sections_page.
  destruct (fetch_no_raise session_get u H) as [v Hv]. rewrite Hv. simpl.
  destruct (CBCSource.no_content v); [eauto|].
  destruct v as [c|]; [|eauto].
  destruct (select_section_links c); eauto.
Qed.

(** Facts about [_unique_ordered_stories]. *)
Lemma unique_from_not_seen (seen : list string) (items : list Story) (s : Story) :
  In s (unique_from seen items) -> ~ In (url s) seen.
Proof.
  revert seen. induction items as [|x items IH]; intros seen Hin; [contradiction|].
  simpl in Hin. destruct (negb (String.eqb (url x) "") &&
                          negb (existsb (String.eqb (url x)) seen)) eqn:Hc.
  - apply andb_true_iff in Hc as [_ Hc]. apply negb_true_iff in Hc.
    destruct Hin as [<-|Hin].
    + intros Hs. assert (existsb (String.eqb (url x)) seen = true)
        by (apply existsb_exists; exists (url x); split; [exact Hs|apply String.eqb_refl]).
      congruence.
    + intros Hs. apply (IH _ Hin). right. exact Hs.
  - apply (IH _ Hin).
Qed.

Lemma unique_from_nonempty (seen : list string) (items : list Story) (s : Story) :
  In s (unique_from seen items) -> url s <> "".
Proof.
  revert seen. induction items as [|x items IH]; intros seen Hin; [contradiction|].
  simpl in Hin. destruct (negb (String.eqb (url x) "") &&
                          negb (existsb (String.eqb (url x)) seen)) eqn:Hc.
  - destruct Hin as [<-|Hin]; [|exact (IH _ Hin)].
    apply andb_true_iff in Hc as [Hc _]. apply negb_true_iff, String.eqb_neq in Hc. exact Hc.
  - exact (IH _ Hin).
Qed.

Lemma unique_from_nodup (seen : list string) (items : list Story) :
  NoDup (map url (unique_from seen items)).
Proof.
  revert seen. induction items as [|x items IH]; intros seen; simpl; [constructor|].
  destruct (negb (String.eqb (url x) "") && negb (existsb (String.eqb (url x)) seen)).
  - simpl. constructor; [|apply IH].
    intros Hin. apply list_elem_of_In, in_map_iff in Hin as (s & Hs & Hin).
    apply (unique_from_not_seen _ _ _ Hin). rewrite Hs. left. reflexivity.
  - apply IH.
Qed.

(** Every kept story is the first one of the input with its url, and the
    kept stories keep their input order. *)
Lemma unique_from_first (seen : list string) (items : list Story) (s : Story) :
  In s (unique_from seen items) ->
  exists pre post, items = (pre ++ s :: post)%list /\ ~ In (url s) (map url pre).
Proof.
  revert seen. induction items as [|x items IH]; intros seen Hin; [contradiction|].
  simpl in Hin. destruct (negb (String.eqb (url x) "") &&
                          negb (existsb (String.eqb (url x)) seen)) eqn:Hc.
  - destruct Hin as [<-|Hin].
    + exists [], items. split; [reflexivity|]. simpl. tauto.
    + destruct (IH _ Hin) as (pre & post & -> & Hpre).
      exists (x :: pre), post. split; [reflexivity|].
      simpl. intros [Heq|Hp]; [|contradiction].
      apply (unique_from_not_seen _ _ _ Hin). rewrite <- Heq. left. reflexivity.
  - destruct (IH _ Hin) as (pre & post & -> & Hpre).
    exists (x :: pre), post. split; [reflexivity|].
    simpl. intros [Heq|Hp]; [|contradiction].
    apply andb_false_iff in Hc. destruct Hc as [Hc|Hc].
    + apply negb_false_iff, String.eqb_eq in Hc.
      (* a story with an empty url is never kept *)
      apply (unique_from_nonempty _ _ _ Hin). rewrite <- Heq. exact Hc.
    + apply negb_false_iff in Hc.
      apply (unique_from_not_seen _ _ _ Hin).
      apply existsb_exists in Hc as (u & Hu & Heu). apply String.eqb_eq in Heu.
      rewrite <- Heq, Heu. exact Hu.
Qed.

Lemma unique_from_sublist (seen : list string) (items : list Story) :
  sublist (unique_from seen items) items.
Proof.
  revert seen. induction items as [|x items IH]; intros seen; simpl; [constructor|].
  destruct (negb (String.eqb (url x) "") && negb (existsb (String.eqb (url x)) seen)).
  - apply sublist_skip, IH.
  - apply sublist_cons, IH.
Qed.

End SourceProps.

Module C10.
Import Fetch CBC CBCSource SourceProps.

(** C10: whatever the two listing pages give (failed fetches, parses that
    raise, sections filtered out by the configured [sections] list),
    [CBCSource.get_sections] returns a list whose first element is the
    "Home" section at [HOME_PAGE_URL] (so never an empty list), provided the
    session raises only [requests] exceptions and the config is a dict. *)
Theorem get_sections_home_first (urljoin : string -> string -> res string)
    (session_get : string -> nat -> outcome)
    (select_section_links : string -> res (list (string * string))) (config : json) :
  (forall u n, requests_only (session_get u n)) ->
  (exists kvs, config = JDict kvs) ->
  exists rest, get_sections urljoin session_get select_section_links config =
               Ok ({| section_title := "Home"; section_url := HOME_PAGE_URL |} :: rest).
Proof.
  intros Hreq [kvs ->]. unfold get_sections. simpl.
  destruct (sections_page_ok urljoin session_get select_section_links
              (kv_get kvs "sections" JNull) HOME_PAGE_URL [] (Hreq _)) as [m1 H1].
  unfold kv_get in H1. rewrite H1. simpl.
  destruct (sections_page_ok urljoin session_get select_section_links
              (match assoc_get "sections" kvs with Some v => v | None => JNull end)
              SECTIONS_PAGE_URL m1 (Hreq _)) as [m2 H2].
  rewrite H2. simpl. eexists. reflexivity.
Qed.

Lemma get_sections_home_first_witness :
  (forall u n, requests_only ((fun (_ : string) (_ : nat) => Raises RequestException) u n)) /\
  (exists kvs, JDict [("sections", JList [JStr "World"])] = JDict kvs) /\
  exists rest, get_sections (fun b u => Ok (b ++ u)) (fun _ _ => Raises RequestException)
                 (fun _ => Raise AttributeError) (JDict [("sections", JList [JStr "World"])]) =
               Ok ({| section_title := "Home"; section_url := HOME_PAGE_URL |} :: rest).
Proof.
  assert (H1 : forall u n, requests_only
                 ((fun (_ : string) (_ : nat) => Raises RequestException) u n))
    by (intros; reflexivity).
  assert (H2 : exists kvs, JDict [("sections", JList [JStr "World"])] = JDict kvs)
    by (eexists; reflexivity).
  split; [exact H1|]. split; [exact H2|].
  exact (get_sections_home_first (fun b u => Ok (b ++ u)) (fun _ _ => Raises RequestException)
           (fun _ => Raise AttributeError) (JDict [("sections", JList [JStr "World"])]) H1 H2).
Defined.

End C10.

Module ListingProps.
Import Fetch CBC CBCSource SourceProps.

(** The scraped-site listing has unique urls, keeps the first story of
    each url and keeps document order. *)
Lemma cbc_get_stories_unique urljoin session_get select_story_links section read_articles
    bookmarks (l : list Story) :
  get_stories urljoin session_get select_story_links section read_articles bookmarks = Ok l ->
  NoDup (map url l) /\
  exists found, sublist l found /\
    forall s, In s l -> exists pre post, found = (pre ++ s :: post)%list /\
                                        ~ In (url s) (map url pre).
Proof.
  unfold get_stories. destruct (mapM _ bookmarks) as [bu|e]; simpl; [|discriminate].
  destruct (fetch session_get (section_url section)) as [[c|]|e]; simpl; [| |discriminate].
  - destruct (String.eqb c ""); [intros [= <-]; split; [constructor|exists []; split;
      [constructor|intros s []]]|].
    destruct (select_story_links c) as [anchors|e]; simpl.
    + destruct (mapM _ anchors) as [found|e]; simpl.
      * intros [= <-]. split; [apply unique_from_nodup|].
        eexists. split; [apply unique_from_sublist|]. intros s Hs.
        exact (unique_from_first _ _ _ Hs).
      * intros [= <-]. split; [constructor|exists []; split; [constructor|intros s []]].
    + intros [= <-]. split; [constructor|exists []; split; [constructor|intros s []]].
  - intros [= <-]. split; [constructor|exists []; split; [constructor|intros s []]].
Qed.

End ListingProps.

Module C2.
Import RSSSource.

Definition duplicate_feed (_ : string) : list entry :=
  [ {| e_title := Some "Story 1"; e_link := Some "http://story1.com";
       e_summary := Some "Summary 1"; e_content := None |};
    {| e_title := Some "Story 1 (updated)"; e_link := Some "http://story1.com";
       e_summary := Some "Summary 1"; e_content := None |} ].

(** C2 (code_bug): [RSSSource.get_stories] appends every feed entry and
    never de-duplicates: a feed with two entries linking to the same url
    yields two stories with that url. ([CBCSource.get_stories] does
    de-duplicate, see [ListingProps.cbc_get_stories_unique].) *)
Theorem rss_get_stories_keeps_duplicates :
  exists l, get_stories duplicate_feed (fun h => h)
              {| section_title := "Feed 1"; section_url := "http://feed1.com" |} [] [] = Ok l /\
            map url l = ["http://story1.com"; "http://story1.com"] /\
            ~ NoDup (map url l).
Proof.
  eexists. split; [reflexivity|]. split; [reflexivity|].
  simpl. intros Hnd. inversion Hnd as [|x l Hnotin _]. apply Hnotin. left.
Qed.

End C2.

Module C4.
Import RSSSource.

(** C4 (code_bug): [RSSSource.get_stories] subscripts [entry["title"]]
    outside any [try], so a feed entry without a title raises [KeyError]
    to the caller; [get_story_content] reads [entry.link], so an entry
    without a link raises [AttributeError]. *)
Theorem rss_malformed_feed_raises :
  get_stories (fun _ => [ {| e_title := None; e_link := Some "http://story1.com";
                              e_summary := Some "Summary 1"; e_content := None |} ])
    (fun h => h) {| section_title := "Feed 1"; section_url := "http://feed1.com" |} [] []
  = Raise KeyError /\
  get_story_content (fun _ => [ {| e_title := Some "Story 1"; e_link := None;
                                    e_summary := Some "Summary 1"; e_content := None |} ])
    (fun h => h)
    {| title := "Story 1"; url := "http://story1.com"; flag := None; summary := None;
       read := false; bookmarked := false |}
    {| section_title := "Feed 1"; section_url := "http://feed1.com" |}
  = Raise AttributeError.
Proof. split; reflexivity. Qed.

End C4.

Module ContentProps.
Import Fetch CBC CBCSource.

Lemma structured_strategy_some urljoin json_loads html_unescape py_repr page full :
  structured_strategy urljoin json_loads html_unescape py_repr page = Some full ->
  exists script, next_data page = Some script /\
    structured_markdown urljoin json_loads html_unescape py_repr script = Ok full /\
    (MIN_ARTICLE_WORDS < word_count full)%nat.
Proof.
  unfold structured_strategy. destruct (next_data page) as [script|]; [|discriminate].
  destruct (structured_markdown _ _ _ _ script) as [f|e] eqn:E; [|discriminate].
  destruct (Nat.ltb_spec MIN_ARTICLE_WORDS (word_count f)); [|discriminate].
  intros [= <-]. eauto.
Qed.

Lemma paragraph_strategy_some page cand :
  paragraph_strategy page = Some cand ->
  cand = paragraph_candidate page /\ cand <> "" /\
  (MIN_ARTICLE_WORDS <= word_count cand)%nat /\ placeholder_search cand = false.
Proof.
  unfold paragraph_strategy.
  destruct (negb (String.eqb (paragraph_candidate page) "") &&
            negb (_is_placeholder_text (paragraph_candidate page))) eqn:E; [|discriminate].
  intros [= <-]. apply andb_true_iff in E as [E1 E2].
  apply negb_true_iff in E1, E2. apply String.eqb_neq in E1.
  unfold _is_placeholder_text in E2. rewrite (proj2 (String.eqb_neq _ _) E1) in E2.
  destruct (Nat.ltb_spec (word_count (paragraph_candidate page)) MIN_ARTICLE_WORDS);
    [discriminate|].
  destruct (placeholder_search (paragraph_candidate page)); [discriminate|].
  repeat split; auto.
Qed.

End ContentProps.

Module C5.
Import Fetch CBC CBCSource ContentProps.

(** C5: [CBCSource.get_story_content] returns [{ok: True}] only with content
    of at least [MIN_ARTICLE_WORDS] (15) words: either the structured-tree
    markdown, accepted only when its word count strictly exceeds 15, or,
    when that strategy gave nothing, the paragraph-scrape candidate, which
    is non-empty, has at least 15 words and does not match the placeholder
    pattern (case-insensitive loading / unable to load / error / retrying
    at word boundaries). *)
Theorem cbc_story_content_quality urljoin session_get parse_article_page json_loads
    html_unescape py_repr (story : Story) (section : Section) d :
  get_story_content urljoin session_get parse_article_page json_loads html_unescape py_repr
    story section = Ok d ->
  assoc_get "ok" d = Some (JBool true) ->
  exists c, d = result true c /\ (MIN_ARTICLE_WORDS <= word_count c)%nat /\
    exists raw page, fetch session_get (url story) = Ok (Some raw) /\ raw <> "" /\
      parse_article_page raw = Ok page /\
      ((exists script, next_data page = Some script /\
          structured_markdown urljoin json_loads html_unescape py_repr script = Ok c /\
          (MIN_ARTICLE_WORDS < word_count c)%nat) \/
       (structured_strategy urljoin json_loads html_unescape py_repr page = None /\
        c = paragraph_candidate page /\ c <> "" /\
        (MIN_ARTICLE_WORDS <= word_count c)%nat /\ placeholder_search c = false)).
Proof.
  unfold get_story_content.
  destruct (fetch session_get (url story)) as [[raw|]|e] eqn:Hf; simpl; [| |discriminate].
  - destruct (String.eqb raw "") eqn:Hraw; [intros [= <-]; discriminate|].
    apply String.eqb_neq in Hraw.
    destruct (parse_article_page raw) as [page|e] eqn:Hp; [|intros [= <-]; discriminate].
    destruct (structured_strategy _ _ _ _ page) as [full|] eqn:Hs.
    + intros [= <-] _. destruct (structured_strategy_some _ _ _ _ _ _ Hs) as (sc & H1 & H2 & H3).
      exists full. split; [reflexivity|]. split; [lia|].
      exists raw, page. repeat split; auto. left. eauto.
    + destruct (paragraph_strategy page) as [cand|] eqn:Hq; [|intros [= <-]; discriminate].
      intros [= <-] _. destruct (paragraph_strategy_some _ _ Hq) as (H1 & H2 & H3 & H4).
      exists cand. split; [reflexivity|]. split; [exact H3|].
      exists raw, page. repeat split; auto. right. auto.
  - intros [= <-]. discriminate.
Qed.

Definition sixteen_words : string :=
  "The city council voted on Tuesday to approve a new budget for public transit next year.".

Lemma cbc_story_content_quality_witness :
  let run := get_story_content (fun b u => Ok (b ++ u)) (fun _ _ => Response 200 "<html>")
               (fun _ => Ok {| next_data := None; paragraphs := [sixteen_words] |})
               (fun _ => Raise JSONDecodeError) (fun s => s) (fun _ => "")
               {| title := "Budget"; url := "https://www.cbc.ca/lite/story/1"; flag := None;
                  summary := None; read := false; bookmarked := false |}
               {| section_title := "Home"; section_url := HOME_PAGE_URL |} in
  run = Ok (result true sixteen_words) /\
  assoc_get "ok" (result true sixteen_words) = Some (JBool true) /\
  (MIN_ARTICLE_WORDS <= word_count sixteen_words)%nat.
Proof.
  intros run. subst run.
  match goal with |- ?r = _ /\ _ =>
    assert (H1 : r = Ok (result true sixteen_words)) by (vm_compute; reflexivity) end.
  assert (H2 : assoc_get "ok" (result true sixteen_words) = Some (JBool true)) by reflexivity.
  split; [exact H1|]. split; [exact H2|].
  destruct (cbc_story_content_quality _ _ _ _ _ _ _ _ _ H1 H2) as (c & Hc & Hw & _).
  injection Hc as <-. exact Hw.
Defined.

End C5.

Module C7.
Import Fetch CBC CBCSource.

(** The claim's failure value for a failed fetch. *)
Definition claimed_fetch_failure : list (string * json) :=
  [("ok", JBool false); ("reason", JStr "failed to fetch")].

(** C7 (counterexample): when every fetch attempt fails,
    [get_story_content] returns [{"ok": False, "content": "Failed to fetch
    article."}]: the message is under ["content"], there is no ["reason"]
    field, and the text differs from "failed to fetch". *)
Lemma story_content_failure_shape_counterexample :
  let run := get_story_content (fun b u => Ok (b ++ u)) (fun _ _ => Raises RequestException)
               (fun _ => Raise AttributeError) (fun _ => Raise JSONDecodeError)
               (fun s => s) (fun _ => "")
               {| title := "Budget"; url := "https://www.cbc.ca/lite/story/1"; flag := None;
                  summary := None; read := false; bookmarked := false |}
               {| section_title := "Home"; section_url := HOME_PAGE_URL |} in
  run = Ok [("ok", JBool false); ("content", JStr "Failed to fetch article.")] /\
  run <> Ok claimed_fetch_failure.
Proof.
  intros run. subst run. split; [vm_compute; reflexivity|].
  vm_compute. discriminate.
Qed.

Lemma rss_find_content_shape html_to_text story_url entries d :
  RSSSource.find_content html_to_text story_url entries = Ok d ->
  (exists c, d = result true c) \/ d = result false RSSSource.NO_CONTENT.
Proof.
  revert d. induction entries as [|e entries IH]; intros d; simpl.
  - intros [= <-]. right. reflexivity.
  - destruct (RSSSource.attribute (RSSSource.e_link e)) as [link|ex]; simpl; [|discriminate].
    destruct (String.eqb link story_url); [|apply IH].
    destruct (RSSSource.e_content e) as [parts|]; [intros [= <-]; left; eauto|].
    destruct (RSSSource.e_summary e) as [sm|]; [intros [= <-]; left; eauto|apply IH].
Qed.

(** C7 (amended): [CBCSource.get_story_content] returns exactly one of
    [{ok: True, content: markdown}], [{ok: False, content: "Failed to fetch
    article."}] and [{ok: False, content: "Could not extract valid article
    content."}], never a ["reason"] field. The fetch failure result is
    returned when the fetch gives no content, whatever the page parser would
    do (no extraction is attempted); the extraction failure result is
    returned exactly when the page was fetched and either parsing raised or
    neither strategy gave acceptable content. [RSSSource.get_story_content]
    returns [{ok: True, content}] or [{ok: False, content: "No content
    found."}]. *)
Theorem story_content_result_shape urljoin session_get parse_article_page json_loads
    html_unescape py_repr feedparser_entries html_to_text (story : Story) (section : Section) :
  (forall v, fetch session_get (url story) = Ok v -> no_content v = true ->
     forall parse',
       get_story_content urljoin session_get parse' json_loads html_unescape py_repr
         story section = Ok (result false FAILED_TO_FETCH)) /\
  (forall d, get_story_content urljoin session_get parse_article_page json_loads
               html_unescape py_repr story section = Ok d ->
     ((exists c, d = result true c) \/ d = result false FAILED_TO_FETCH \/
      d = result false COULD_NOT_EXTRACT) /\ assoc_get "reason" d = None) /\
  (forall raw, fetch session_get (url story) = Ok (Some raw) -> raw <> "" ->
     (get_story_content urljoin session_get parse_article_page json_loads html_unescape
        py_repr story section = Ok (result false COULD_NOT_EXTRACT) <->
      (exists e, parse_article_page raw = Raise e) \/
      (exists page, parse_article_page raw = Ok page /\
         structured_strategy urljoin json_loads html_unescape py_repr page = None /\
         paragraph_strategy page = None))) /\
  (forall d, RSSSource.get_story_content feedparser_entries html_to_text story section = Ok d ->
     (exists c, d = result true c) \/ d = result false RSSSource.NO_CONTENT).
Proof.
  split; [|split; [|split]].
  - intros v Hf Hnc parse'. unfold get_story_content. rewrite Hf. simpl.
    destruct v as [c|]; [|reflexivity]. simpl in Hnc. rewrite Hnc. reflexivity.
  - intros d. unfold get_story_content.
    destruct (fetch session_get (url story)) as [[raw|]|e]; simpl; [| |discriminate].
    + destruct (String.eqb raw ""); [intros [= <-]; split; [right; left; reflexivity|reflexivity]|].
      destruct (parse_article_page raw) as [page|e];
        [|intros [= <-]; split; [right; right; reflexivity|reflexivity]].
      destruct (structured_strategy _ _ _ _ page) as [full|];
        [intros [= <-]; split; [left; eauto|reflexivity]|].
      destruct (paragraph_strategy page) as [cand|];
        [intros [= <-]; split; [left; eauto|reflexivity]|].
      intros [= <-]. split; [right; right; reflexivity|reflexivity].
    + intros [= <-]. split; [right; left; reflexivity|reflexivity].
  - intros raw Hf Hraw. unfold get_story_content. rewrite Hf. simpl.
    rewrite (proj2 (String.eqb_neq _ _) Hraw).
    destruct (parse_article_page raw) as [page|e].
    + destruct (structured_strategy _ _ _ _ page) as [full|] eqn:Hs.
      * split; [intros [=]|].
        intros [[e He]|(page' & [= <-] & Hs' & _)]; [discriminate|congruence].
      * destruct (paragraph_strategy page) as [cand|] eqn:Hq.
        -- split; [intros [=]|].
           intros [[e He]|(page' & [= <-] & _ & Hq')]; [discriminate|congruence].
        -- split; [intros _; right; eauto|reflexivity].
    + split; [intros _; left; eauto|reflexivity].
  - intros d. unfold RSSSource.get_story_content. apply rss_find_content_shape.
Qed.

Definition example_story : Story :=
  {| title := "Budget"; url := "https://www.cbc.ca/lite/story/1"; flag := None;
     summary := None; read := false; bookmarked := false |}.

Lemma story_content_result_shape_witness :
  fetch (fun _ _ => Response 200 "<p>") (url example_story) = Ok (Some "<p>") /\
  get_story_content (fun b u => Ok (b ++ u)) (fun _ _ => Response 200 "<p>")
    (fun _ => Raise AttributeError) (fun _ => Raise JSONDecodeError) (fun s => s) (fun _ => "")
    example_story {| section_title := "Home"; section_url := HOME_PAGE_URL |}
  = Ok (result false COULD_NOT_EXTRACT).
Proof.
  assert (Hf : fetch (fun _ _ => Response 200 "<p>") (url example_story) = Ok (Some "<p>"))
    by (vm_compute; reflexivity).
  split; [exact Hf|].
  destruct (story_content_result_shape (fun b u => Ok (b ++ u)) (fun _ _ => Response 200 "<p>")
              (fun _ => Raise AttributeError) (fun _ => Raise JSONDecodeError) (fun s => s)
              (fun _ => "") (fun _ => []) (fun s => s) example_story
              {| section_title := "Home"; section_url := HOME_PAGE_URL |})
    as (_ & _ & H3 & _).
  apply (proj2 (H3 "<p>" Hf ltac:(discriminate))).
  left. exists AttributeError. reflexivity.
Defined.

End C7.

Module MarkdownProps.
Import CBC MarkdownSpec.

Section NodeInd.
Variable P : node -> Prop.
Hypothesis HText : forall s, P (Text s).
Hypothesis HElement : forall t h cs, Forall P cs -> P (Element t h cs).

Fixpoint node_ind' (n : node) : P n :=
  match n with
  | Text s => HText s
  | Element t h cs =>
      HElement t h cs
        ((fix go (l : list node) : Forall P l :=
            match l with
            | [] => @List.Forall_nil _ P
            | c :: l' => @List.Forall_cons _ P c l' (node_ind' c) (go l')
            end) cs)
  end.
End NodeInd.

Lemma tag_map_rule t cc h :
  match tag_map t cc h with Some md => md | None => cc end = spec_rule t cc h.
Proof.
  unfold tag_map, spec_rule.
  repeat (destruct (String.eqb _ _); [reflexivity|]). reflexivity.
Qed.

Lemma str_join_strs (l : list string) :
  str_join "" (map JStr l) = Ok (String.concat "" l).
Proof.
  unfold str_join.
  assert (H : mapM (fun v => match v with JStr s => Ok s | _ => Raise TypeError end)
                (map JStr l) = Ok l).
  { induction l as [|s l IH]; simpl; [reflexivity|]. rewrite IH. reflexivity. }
  rewrite H. reflexivity.
Qed.

Definition resolves (urljoin : string -> string -> res string) (absolute : string -> string)
    (us : list string) : Prop :=
  forall u, In u us -> _abs_url urljoin u = Ok (absolute u).

Lemma render_enc urljoin absolute (n : node) :
  resolves urljoin absolute (hrefs n) ->
  _parse_json_node_to_markdown urljoin (enc n) = Ok (JStr (spec_render absolute n)).
Proof.
  induction n as [s|t h cs IH] using node_ind'; intros Hr.
  - reflexivity.
  - assert (Hcs : mapM (_parse_json_node_to_markdown urljoin) (map enc cs)
                  = Ok (map (fun c => JStr (spec_render absolute c)) cs)).
    { assert (Hr' : resolves urljoin absolute (flat_map hrefs cs)).
      { intros u Hu. apply Hr. simpl. apply in_or_app. right. exact Hu. }
      clear Hr. induction IH as [|c cs Hc _ IHcs]; [reflexivity|].
      simpl. rewrite Hc by (intros u Hu; apply Hr'; simpl; apply in_or_app; left; exact Hu).
      rewrite IHcs by (intros u Hu; apply Hr'; simpl; apply in_or_app; right; exact Hu).
      reflexivity. }
    destruct h as [u|].
    + assert (Hu : _abs_url urljoin u = Ok (absolute u)) by (apply Hr; simpl; left; reflexivity).
      unfold _abs_url in Hu. simpl. rewrite Hcs, <- (map_map (spec_render absolute) JStr cs).
      cbn [bind]. rewrite str_join_strs. cbn [bind]. rewrite Hu. cbn [bind].
      rewrite tag_map_rule. reflexivity.
    + simpl. rewrite Hcs, <- (map_map (spec_render absolute) JStr cs).
      cbn [bind]. rewrite str_join_strs. cbn [bind]. rewrite tag_map_rule. reflexivity.
Qed.

End MarkdownProps.

Module C6.
Import CBC MarkdownSpec MarkdownProps.

(** C6: on every spec-shaped node tree whose hrefs all resolve (each
    [_abs_url(href)] returns [absolute href]), [_parse_json_node_to_markdown]
    renders exactly the spec's tag-dispatch table: a text node gives its
    text, [p] its trimmed children and two newlines, a blockquote each line
    of its trimmed children as ["> " ++ line ++ "\n"] and one more newline,
    an unrecognized tag its children unchanged. The scenario tree renders
    ["Hello\n\n"] whatever [urljoin] does. But the table is built eagerly, so
    the [a] entry's href is resolved for every element: a [p] element whose
    [attrs.href] makes [urljoin] raise (CPython raises [ValueError] for
    ["//["]) makes the renderer raise instead of giving ["Hello\n\n"]. *)
Theorem markdown_renderer_table (urljoin : string -> string -> res string)
    (absolute : string -> string) :
  (forall n, resolves urljoin absolute (hrefs n) ->
     _parse_json_node_to_markdown urljoin (enc n) = Ok (JStr (spec_render absolute n))) /\
  _parse_json_node_to_markdown urljoin scenario_tree = Ok (JStr ("Hello" ++ NL ++ NL)) /\
  _parse_json_node_to_markdown urljoin
    (enc (Element "blockquote" None [Text (" a" ++ NL ++ "b ")]))
    = Ok (JStr ("> a" ++ NL ++ "> b" ++ NL ++ NL)) /\
  (forall cs, resolves urljoin absolute (flat_map hrefs cs) ->
     _parse_json_node_to_markdown urljoin (enc (Element "div" None cs))
     = Ok (JStr (String.concat "" (map (spec_render absolute) cs)))) /\
  (urljoin DOMAIN_BASE "//[" = Raise ValueError ->
     _parse_json_node_to_markdown urljoin (enc (Element "p" (Some "//[") [Text "Hello"]))
     = Raise ValueError).
Proof.
  split; [|split; [|split; [|split]]].
  - intros n Hr. apply render_enc. exact Hr.
  - reflexivity.
  - reflexivity.
  - intros cs Hr. apply (render_enc urljoin absolute (Element "div" None cs)).
    exact Hr.
  - intros Hj. simpl. unfold _abs_url_value. simpl. rewrite Hj. reflexivity.
Qed.

(** The CPython behaviour of [urljoin] on the two inputs used below. *)
Definition urljoin_example (base h : string) : res string :=
  if String.prefix "//[" h then Raise ValueError else Ok (base ++ h).

Lemma markdown_renderer_table_witness :
  _parse_json_node_to_markdown urljoin_example
    (enc (Element "a" (Some "/news/1") [Text "more"]))
  = Ok (JStr ("[more](" ++ DOMAIN_BASE ++ "/news/1)")) /\
  _parse_json_node_to_markdown urljoin_example
    (enc (Element "p" (Some "//[") [Text "Hello"])) = Raise ValueError.
Proof.
  destruct (markdown_renderer_table urljoin_example (fun h => DOMAIN_BASE ++ h))
    as (Hall & _ & _ & _ & Hbad).
  split.
  - apply (Hall (Element "a" (Some "/news/1") [Text "more"])).
    intros u [<-|[]]. reflexivity.
  - apply Hbad. reflexivity.
Defined.

End C6.

(* ================================================================== *)
(** * Further properties of the code                                   *)
(* ================================================================== *)

Module FetchMore.
Import Fetch.

Lemma loop_first_non_failure (sg : nat -> outcome) (attempts k : nat) :
  (k <= attempts)%nat ->
  forall fuel attempt delay, (attempt + fuel = S attempts)%nat -> (attempt <= k)%nat ->
    (forall i, (attempt <= i < k)%nat -> attempt_fails (sg i)) ->
    let r := loop sg attempts attempt delay fuel in
    (forall body, get_content (sg k) = Ok body ->
       snd r = Ok (Some body) /\ attempts_made (fst r) = S (k - attempt)) /\
    (forall e, get_content (sg k) = Raise e -> is_request_exception e = false ->
       snd r = Raise e /\ attempts_made (fst r) = S (k - attempt)).
Proof.
  intros Hk. induction fuel as [|fuel IH]; intros attempt delay Hsum Ha Hfail; [lia|].
  simpl. destruct (Nat.eq_dec attempt k) as [->|Hne].
  - split.
    + intros body Hb. rewrite Hb. simpl. split; [reflexivity|]. unfold attempts_made. simpl. lia.
    + intros e He Hn. rewrite He, Hn. simpl. split; [reflexivity|]. unfold attempts_made. simpl. lia.
  - assert (Hf := Hfail attempt ltac:(lia)). unfold attempt_fails in Hf.
    destruct (get_content (sg attempt)) as [b|e']; [contradiction|]. rewrite Hf.
    rewrite (proj2 (Nat.eqb_neq attempt attempts)) by lia.
    destruct (IH (S attempt) (delay * 2) ltac:(lia) ltac:(lia)
                (fun i Hi => Hfail i ltac:(lia))) as [IH1 IH2].
    destruct (loop sg attempts (S attempt) (delay * 2) fuel) as [tr r]; simpl in *.
    unfold attempts_made in *; simpl.
    split.
    + intros body Hb. destruct (IH1 body Hb) as [-> Hl]. split; [reflexivity|lia].
    + intros e He Hn. destruct (IH2 e He Hn) as [-> Hl]. split; [reflexivity|lia].
Qed.

Lemma loop_trace (sg : nat -> outcome) (attempts : nat) :
  forall fuel attempt delay, (attempt + fuel = S attempts)%nat -> (1 <= fuel)%nat ->
    let r := loop sg attempts attempt delay fuel in
    exists m, (attempt <= m <= attempts)%nat /\
      fst r = backoff_trace_from attempt delay (S (m - attempt)) /\
      (forall i, (attempt <= i < m)%nat -> attempt_fails (sg i)) /\
      snd r = match get_content (sg m) with
              | Ok body => Ok (Some body)
              | Raise e => if is_request_exception e then Ok None else Raise e
              end /\
      (attempt_fails (sg m) -> m = attempts).
Proof.
  induction fuel as [|fuel IH]; intros attempt delay Hsum Hf; [lia|]. cbn [loop].
  destruct (get_content (sg attempt)) as [body|e] eqn:Hg.
  - exists attempt. rewrite Nat.sub_diag, Hg. unfold attempt_fails. rewrite Hg.
    repeat split; try lia; try reflexivity; intros; (lia || contradiction).
  - destruct (is_request_exception e) eqn:He.
    + destruct (Nat.eqb attempt attempts) eqn:Heq.
      * apply Nat.eqb_eq in Heq. exists attempt. rewrite Nat.sub_diag, Hg, He.
        repeat split; try lia; try reflexivity; intros; lia.
      * apply Nat.eqb_neq in Heq.
        destruct (IH (S attempt) (delay * 2) ltac:(lia) ltac:(lia))
          as (m & Hm & Htr & Hfail & Hr & Hlast).
        destruct (loop sg attempts (S attempt) (delay * 2) fuel) as [tr r]; cbn [fst snd] in *.
        exists m. split; [lia|]. split; [|split; [|split; [exact Hr|exact Hlast]]].
        -- rewrite Htr. replace (S (m - attempt)) with (S (S (m - S attempt))) by lia.
           cbn [backoff_trace_from]. rewrite Z.mul_comm. reflexivity.
        -- intros i Hi. destruct (Nat.eq_dec i attempt) as [->|Hne].
           ++ unfold attempt_fails. rewrite Hg. exact He.
           ++ apply Hfail. lia.
    + exists attempt. rewrite Nat.sub_diag, Hg, He. unfold attempt_fails. rewrite Hg, He.
      repeat split; try lia; try reflexivity; intros; (lia || discriminate).
Qed.

(** [_retryable_fetch(url, attempts=n)], for any session behaviour: with
    [n = 0] it makes no request and returns [None]. Otherwise it makes
    requests [1 .. m] for some [m <= n], with a sleep of 0.5 s, 1 s, 2 s, ...
    after each of the first [m - 1]; each of those failed (a [requests]
    exception or an error status); attempt [m] decides the result: its body,
    [None] when it failed too (then [m = n]), or its other exception. *)
Theorem retryable_fetch_trace (session_get : string -> nat -> outcome) (u : string)
    (attempts : nat) :
  let r := _retryable_fetch session_get u attempts in
  (attempts = 0%nat /\ r = ([], Ok None)) \/
  exists m, (1 <= m <= attempts)%nat /\
    fst r = backoff_trace m /\
    (forall i, (1 <= i < m)%nat -> attempt_fails (session_get u i)) /\
    snd r = match get_content (session_get u m) with
            | Ok body => Ok (Some body)
            | Raise e => if is_request_exception e then Ok None else Raise e
            end /\
    (attempt_fails (session_get u m) -> m = attempts).
Proof.
  destruct attempts as [|n].
  - left. split; reflexivity.
  - right. unfold _retryable_fetch, backoff_trace.
    destruct (loop_trace (session_get u) (S n) (S n) 1 INITIAL_RETRY_DELAY ltac:(lia) ltac:(lia))
      as (m & Hm & Htr & Hfail & Hr & Hlast).
    exists m. split; [lia|]. split; [|split; [exact Hfail|split; [exact Hr|exact Hlast]]].
    rewrite Htr. f_equal. lia.
Qed.

(** When attempts [1 .. k-1] fail with a [requests] exception or an error
    status and [k <= attempts], attempt [k] decides: a response without an
    error status returns its body after [k] requests, and an exception that
    is not a [RequestException] escapes [_retryable_fetch] after [k]
    requests, with no further retry. *)
Theorem retryable_fetch_first_non_failure (session_get : string -> nat -> outcome)
    (u : string) (attempts k : nat) :
  (1 <= k <= attempts)%nat ->
  (forall i, (1 <= i < k)%nat -> attempt_fails (session_get u i)) ->
  let r := _retryable_fetch session_get u attempts in
  (forall body, get_content (session_get u k) = Ok body ->
     snd r = Ok (Some body) /\ attempts_made (fst r) = k) /\
  (forall e, get_content (session_get u k) = Raise e -> is_request_exception e = false ->
     snd r = Raise e /\ attempts_made (fst r) = k).
Proof.
  intros Hk Hfail.
  destruct (loop_first_non_failure (session_get u) attempts k ltac:(lia) attempts 1
              INITIAL_RETRY_DELAY ltac:(lia) ltac:(lia) Hfail) as [H1 H2].
  unfold _retryable_fetch. split.
  - intros body Hb. destruct (H1 body Hb) as [Hr Hl]. split; [exact Hr|lia].
  - intros e He Hn. destruct (H2 e He Hn) as [Hr Hl]. split; [exact Hr|lia].
Qed.

Definition flaky_session (_ : string) (i : nat) : outcome :=
  if Nat.eqb i 1 then Raises RequestException
  else if Nat.eqb i 2 then Response 503 "" else Response 200 "<html>".

Lemma retryable_fetch_first_non_failure_witness :
  snd (_retryable_fetch flaky_session "https://www.cbc.ca/lite" 4) = Ok (Some "<html>") /\
  attempts_made (fst (_retryable_fetch flaky_session "https://www.cbc.ca/lite" 4)) = 3%nat.
Proof.
  apply (retryable_fetch_first_non_failure flaky_session "https://www.cbc.ca/lite" 4 3).
  - lia.
  - intros i Hi. destruct i as [|[|[|i]]]; [lia|vm_compute; reflexivity|vm_compute; reflexivity|lia].
  - reflexivity.
Defined.

End FetchMore.

Module CacheMore.
Import Cache.

Definition hex_example (key : string) : string :=
  if String.eqb key "https://www.cbc.ca/lite" then "9f2c" else "01ab".

Definition fs_example : cache_fs :=
  {| files := <["/tmp/cache/9f2c.json" := FileJson (JDict [("timestamp", JInt 0);
                                                           ("value", JStr "x")])]>
              (<["/tmp/config.json" := FileInvalidJson]> ∅);
     read_only := ∅ |}.

(** [Cache.set(key, value)] touches only the key's own file: [Cache.get]
    of every key with another cache path answers as before, whether the set
    succeeds, raises or cannot open its file. *)
Theorem cache_set_frame (hexdigest : string -> string) (c : t) (fs : cache_fs)
    (now now' : Z) (key key' : string) (value : pyval) :
  _get_cache_path hexdigest c key' <> _get_cache_path hexdigest c key ->
  get hexdigest c (fst (set hexdigest c fs now key value)) now' key' =
  get hexdigest c fs now' key'.
Proof.
  intros Hne. unfold set.
  destruct (decide (_get_cache_path hexdigest c key ∈ read_only fs)); [reflexivity|].
  destruct (to_json _); unfold get; simpl; rewrite lookup_insert_ne by congruence;
    reflexivity.
Qed.

Lemma cache_set_frame_witness :
  get hex_example {| cache_dir := "/tmp/cache"; ttl := 600 |}
    (fst (set hex_example {| cache_dir := "/tmp/cache"; ttl := 600 |} fs_example 5
            "https://www.cbc.ca/lite/sections" PObject)) 10 "https://www.cbc.ca/lite"
  = Ok (PStr "x").
Proof.
  rewrite (cache_set_frame hex_example {| cache_dir := "/tmp/cache"; ttl := 600 |} fs_example
             5 10 "https://www.cbc.ca/lite/sections" "https://www.cbc.ca/lite" PObject).
  - vm_compute. reflexivity.
  - vm_compute. discriminate.
Defined.

End CacheMore.

Module ConfigFilesProps.
Import Cache ConfigFiles.

Lemma mapM_to_json_from_json (b : list json) :
  mapM to_json (map from_json b) =
  if forallb json_ints_ok b then Ok b else Raise ValueError.
Proof.
  induction b as [|j b IH]; simpl; [reflexivity|].
  rewrite CacheProps.to_json_from_json. destruct (json_ints_ok j); simpl; [|reflexivity].
  rewrite IH. destruct (forallb json_ints_ok b); reflexivity.
Qed.

(** [save_read_articles] then [load_read_articles] gives back exactly the
    saved URLs, when the file can be written; when it cannot, the old file
    stays and no exception escapes. *)
Theorem read_articles_roundtrip (f : option file) (l : list string) :
  snd (save_read_articles f true l) = Ok tt /\
  load_read_articles (fst (save_read_articles f true l)) = Ok (map JStr l) /\
  save_read_articles f false l = (f, Ok tt).
Proof.
  split; [reflexivity|]. split; [|reflexivity].
  assert (Hd : existsb (fun v => match v with JList _ | JDict _ => true | _ => false end)
                 (map JStr l) = false).
  { induction l as [|s l IH]; simpl; [reflexivity|exact IH]. }
  assert (Hm : map json_decode (map JStr l) = map JStr l).
  { rewrite map_map. reflexivity. }
  assert (Hi : forallb json_ints_ok (map JStr l) = true).
  { clear Hd Hm. induction l as [|s l IH]; simpl; [reflexivity|exact IH]. }
  unfold load_read_articles, save_read_articles, json_load. cbn [negb fst json_ints_ok].
  rewrite Hi. simpl. rewrite Hm. simpl. rewrite Hd. reflexivity.
Qed.

(** How the two loaders of [config.py] treat a damaged file: a missing
    file, invalid JSON or an unreadable file gives the empty set / list. A
    file that is not UTF-8 raises [UnicodeDecodeError] out of both, and a
    JSON document with an integer of more than [INT_MAX_STR_DIGITS] digits
    raises [ValueError] out of both (it is not a [json.JSONDecodeError]).
    [load_read_articles] raises [TypeError] when the document is an
    integer within the limit, a boolean or null, or a list holding a list or
    an object. *)
Theorem config_loaders_errors :
  load_read_articles None = Ok [] /\
  load_read_articles (Some FileInvalidJson) = Ok [] /\
  load_read_articles (Some FileUnreadable) = Ok [] /\
  load_read_articles (Some FileInvalidUtf8) = Raise UnicodeDecodeError /\
  (forall j, json_ints_ok j = false ->
     load_read_articles (Some (FileJson j)) = Raise ValueError /\
     load_bookmarks (Some (FileJson j)) = Raise ValueError) /\
  (forall j, match j with JNull | JBool _ => True | JInt z => int_str_ok z = true
                     | _ => False end ->
     load_read_articles (Some (FileJson j)) = Raise TypeError) /\
  (forall l, forallb json_ints_ok l = true ->
     existsb (fun v => match v with JList _ | JDict _ => true | _ => false end) l = true ->
     load_read_articles (Some (FileJson (JList l))) = Raise TypeError) /\
  load_bookmarks None = Ok (JList []) /\
  load_bookmarks (Some FileInvalidJson) = Ok (JList []) /\
  load_bookmarks (Some FileUnreadable) = Ok (JList []) /\
  load_bookmarks (Some FileInvalidUtf8) = Raise UnicodeDecodeError.
Proof.
  split; [reflexivity|]. split; [reflexivity|]. split; [reflexivity|].
  split; [reflexivity|]. split; [|split; [|split]]; [| | |repeat split].
  - intros j Hj. unfold load_read_articles, load_bookmarks, json_load. rewrite Hj.
    split; reflexivity.
  - intros [| |z| | |] Hj; try contradiction; try reflexivity.
    unfold load_read_articles, json_load. simpl. rewrite Hj. reflexivity.
  - intros l Hok Hl. unfold load_read_articles, json_load. simpl json_ints_ok. rewrite Hok.
    simpl. assert (Hd : existsb (fun v => match v with JList _ | JDict _ => true | _ => false end)
                          (map json_decode l) = true).
    { clear -Hl. induction l as [|v l IH]; simpl in *; [discriminate|].
      destruct v; simpl in *; auto. }
    rewrite Hd. reflexivity.
Qed.

(** [save_bookmarks] then [load_bookmarks] gives back bookmarks that are
    JSON documents' Python values, when no integer in them has more than
    [INT_MAX_STR_DIGITS] digits. Such an integer makes [json.dump] raise
    [ValueError], and any bookmark [json.dump] cannot serialise makes
    [save_bookmarks] raise after truncating the file ([except IOError]
    catches neither), so the following [load_bookmarks] returns no
    bookmarks at all. *)
Theorem bookmarks_roundtrip (f : option file) (b : list json) (b' : list pyval) :
  forallb json_wf b = true ->
  (forallb json_ints_ok b = true ->
   snd (save_bookmarks f true (map from_json b)) = Ok tt /\
   load_bookmarks (fst (save_bookmarks f true (map from_json b))) = Ok (JList b)) /\
  (forallb json_ints_ok b = false ->
   snd (save_bookmarks f true (map from_json b)) = Raise ValueError /\
   load_bookmarks (fst (save_bookmarks f true (map from_json b))) = Ok (JList [])) /\
  (forall e, to_json (PList b') = Raise e ->
     snd (save_bookmarks f true b') = Raise e /\
     load_bookmarks (fst (save_bookmarks f true b')) = Ok (JList [])).
Proof.
  intros Hwf. split; [|split].
  - intros Hok. unfold save_bookmarks. simpl. rewrite mapM_to_json_from_json, Hok. simpl.
    split; [reflexivity|]. unfold load_bookmarks, json_load. simpl json_ints_ok. rewrite Hok.
    pose proof (CacheProps.json_decode_wf (JList b) Hwf) as Hj. simpl in Hj.
    rewrite Hj. reflexivity.
  - intros Hbad. unfold save_bookmarks. simpl. rewrite mapM_to_json_from_json, Hbad.
    split; reflexivity.
  - intros e He. unfold save_bookmarks. cbn [negb]. rewrite He. split; reflexivity.
Qed.

Lemma bookmarks_roundtrip_witness :
  load_bookmarks (fst (save_bookmarks None true
    (map from_json [JDict [("title", JStr "Budget"); ("url", JStr "https://www.cbc.ca/lite/story/1")]])))
  = Ok (JList [JDict [("title", JStr "Budget"); ("url", JStr "https://www.cbc.ca/lite/story/1")]]) /\
  load_bookmarks (fst (save_bookmarks None true [PObject])) = Ok (JList []) /\
  snd (save_bookmarks None true (map from_json [JDict [("id", JInt (10 ^ 4300))]]))
    = Raise ValueError /\
  load_bookmarks (fst (save_bookmarks None true
                         (map from_json [JDict [("id", JInt (10 ^ 4300))]]))) = Ok (JList []).
Proof.
  destruct (bookmarks_roundtrip None
              [JDict [("title", JStr "Budget"); ("url", JStr "https://www.cbc.ca/lite/story/1")]]
              [PObject] ltac:(reflexivity)) as (H1 & _ & H2).
  split; [apply H1; reflexivity|]. split; [apply (H2 TypeError); reflexivity|].
  destruct (bookmarks_roundtrip None [JDict [("id", JInt (10 ^ 4300))]] []
              ltac:(reflexivity)) as (_ & H3 & _).
  apply H3. reflexivity.
Defined.

End ConfigFilesProps.

Module FetcherMetaProps.
Import FetcherMeta.

Lemma nodup_snoc {A} (l : list A) (x : A) :
  NoDup l -> ~ In x l -> NoDup (l ++ [x])%list.
Proof.
  intros Hd Hx. apply NoDup_app. split; [exact Hd|]. split; [|apply NoDup_singleton].
  intros y Hy Hy'. apply list_elem_of_singleton in Hy'. subst y.
  apply Hx, list_elem_of_In, Hy.
Qed.

Definition seen_inv (seen : list string) (acc : list Story) : Prop :=
  (forall u, In u seen <-> In u (map url acc)) /\ NoDup (map url acc).

Lemma add_stories_spec (stories : list Story) :
  forall seen acc, seen_inv seen acc ->
    let r := add_stories seen stories acc in
    seen_inv (snd r) (fst r) /\
    (forall st, In st (fst r) -> In st acc \/ In st stories) /\
    (forall st, In st acc -> In st (fst r)) /\
    (forall st, In st stories -> In (url st) (map url (fst r))).
Proof.
  induction stories as [|st rest IH]; intros seen acc [Hs Hd]; simpl.
  - split; [split; assumption|]. split; [intros st H; left; exact H|].
    split; [intros st H; exact H|]. intros st [].
  - destruct (existsb (String.eqb (url st)) seen) eqn:He.
    + destruct (IH seen acc (conj Hs Hd)) as (Hi & H1 & H2 & H3). split; [exact Hi|].
      split; [intros x Hx; destruct (H1 x Hx) as [H|H]; [left|right; right]; exact H|].
      split; [exact H2|].
      intros x [<-|Hx]; [|apply H3; exact Hx].
      apply existsb_exists in He as (u & Hu & Heq). apply String.eqb_eq in Heq. subst u.
      apply Hs, in_map_iff in Hu as (y & Hy & Hya).
      apply in_map_iff. exists y. split; [exact Hy|apply H2; exact Hya].
    + assert (Hn : ~ In (url st) (map url acc)).
      { intros H. apply Hs in H.
        assert (existsb (String.eqb (url st)) seen = true) as Ht
          by (apply existsb_exists; exists (url st); split; [exact H|apply String.eqb_refl]).
        congruence. }
      assert (Hi0 : seen_inv (url st :: seen) (acc ++ [st])%list).
      { split.
        - intros u. rewrite map_app, in_app_iff. simpl. rewrite Hs. tauto.
        - rewrite map_app. apply nodup_snoc; assumption. }
      destruct (IH _ _ Hi0) as (Hi & H1 & H2 & H3). split; [exact Hi|].
      split.
      { intros x Hx. destruct (H1 x Hx) as [H|H]; [|right; right; exact H].
        apply in_app_iff in H as [H|[H|[]]]; [left; exact H|right; left; exact H]. }
      split; [intros x Hx; apply H2, in_app_iff; left; exact Hx|].
      intros x [<-|Hx]; [|apply H3; exact Hx].
      apply in_map. apply H2, in_app_iff. right. left. reflexivity.
Qed.

Lemma collect_spec (results : list (res (list Story))) :
  forall seen acc, seen_inv seen acc ->
    let out := collect seen acc results in
    NoDup (map url out) /\
    (forall st, In st out -> In st acc \/ exists ss, In (Ok ss) results /\ In st ss) /\
    (forall ss, In (Ok ss) results -> forall st, In st ss -> In (url st) (map url out)) /\
    (forall st, In st acc -> In st out).
Proof.
  induction results as [|r results IH]; intros seen acc Hi; simpl.
  - split; [apply Hi|]. split; [intros st H; left; exact H|].
    split; [intros ss []|]. intros st H; exact H.
  - destruct r as [stories|e].
    + destruct (add_stories_spec stories seen acc Hi) as (Hi' & A1 & A2 & A3).
      destruct (add_stories seen stories acc) as [acc' seen'] eqn:Ha; simpl in *.
      destruct (IH seen' acc' Hi') as (C1 & C2 & C3 & C4).
      split; [exact C1|]. split.
      { intros st Hst. destruct (C2 st Hst) as [H|(ss & Hss & H)].
        - destruct (A1 st H) as [H'|H']; [left; exact H'|right; exists stories; split; [left; reflexivity|exact H']].
        - right. exists ss. split; [right; exact Hss|exact H]. }
      split.
      { intros ss [Hss|Hss] st Hst.
        - injection Hss as <-. apply A3 in Hst.
          apply in_map_iff in Hst as (y & Hy & Hya). apply in_map_iff.
          exists y. split; [exact Hy|apply C4; exact Hya].
        - apply (C3 ss Hss st Hst). }
      intros st H. apply C4, A2, H.
    + destruct (IH seen acc Hi) as (C1 & C2 & C3 & C4).
      split; [exact C1|]. split.
      { intros st Hst. destruct (C2 st Hst) as [H|(ss & Hss & H)]; [left; exact H|].
        right. exists ss. split; [right; exact Hss|exact H]. }
      split; [|exact C4].
      intros ss [Hss|Hss]; [discriminate|]. apply C3. exact Hss.
Qed.

(** [Fetcher.get_stories_for_meta_section(names, ...)], in whatever order
    the [get_stories] calls complete, returns stories with pairwise
    distinct URLs, each one of the stories [get_stories] returned for a
    requested section (a name's last section in [get_sections()]); a
    section whose [get_stories] raises contributes nothing, and every URL of
    a section whose [get_stories] returns is in the result. *)
Theorem meta_section_merge (get_sections : res (list Section))
    (get_stories : Section -> res (list Story)) (as_completed : list Section -> list Section)
    (section_names : list string) (all_sections : list Section) :
  (forall l, Permutation (as_completed l) l) ->
  get_sections = Ok all_sections ->
  let to_fetch := sections_to_fetch all_sections section_names in
  exists out,
    get_stories_for_meta_section get_sections get_stories as_completed section_names = Ok out /\
    NoDup (map url out) /\
    (forall st, In st out -> exists s ss, In s to_fetch /\ get_stories s = Ok ss /\ In st ss) /\
    (forall s ss, In s to_fetch -> get_stories s = Ok ss ->
       forall st, In st ss -> In (url st) (map url out)).
Proof.
  intros Hperm Hs to_fetch. unfold get_stories_for_meta_section. rewrite Hs. simpl.
  fold to_fetch.
  destruct (collect_spec (map get_stories (as_completed to_fetch)) [] []
              (conj (fun u => iff_refl _) NoDup_nil_2)) as (C1 & C2 & C3 & _).
  eexists. split; [reflexivity|]. split; [exact C1|]. split.
  - intros st Hst. destruct (C2 st Hst) as [[]|(ss & Hss & H)].
    apply in_map_iff in Hss as (s & Hgs & Hin).
    exists s, ss. split; [|split; [exact Hgs|exact H]].
    eapply Permutation_in; [apply Hperm|exact Hin].
  - intros s ss Hin Hgs st Hst. apply (C3 ss); [|exact Hst].
    rewrite <- Hgs. apply in_map.
    eapply Permutation_in; [apply Permutation_sym, Hperm|exact Hin].
Qed.

Definition mk_story (t u : string) : Story :=
  {| title := t; url := u; flag := None; summary := None; read := false; bookmarked := false |}.

Definition meta_stories (s : Section) : res (list Story) :=
  if String.eqb (section_title s) "World" then Raise RequestException
  else Ok [mk_story "A" "https://www.cbc.ca/lite/story/1";
           mk_story "A again" "https://www.cbc.ca/lite/story/1"].

Lemma meta_section_merge_witness :
  exists out,
    get_stories_for_meta_section
      (Ok [{| section_title := "Canada"; section_url := "https://www.cbc.ca/lite/canada" |};
           {| section_title := "World"; section_url := "https://www.cbc.ca/lite/world" |}])
      meta_stories (fun l => l) ["Canada"; "World"; "Canada"] = Ok out /\
    NoDup (map url out).
Proof.
  destruct (meta_section_merge
              (Ok [{| section_title := "Canada"; section_url := "https://www.cbc.ca/lite/canada" |};
                   {| section_title := "World"; section_url := "https://www.cbc.ca/lite/world" |}])
              meta_stories (fun l => l) ["Canada"; "World"; "Canada"]
              [{| section_title := "Canada"; section_url := "https://www.cbc.ca/lite/canada" |};
               {| section_title := "World"; section_url := "https://www.cbc.ca/lite/world" |}]
              (fun l => Permutation_refl l) eq_refl) as (out & H1 & H2 & _).
  exists out. split; [exact H1|exact H2].
Defined.

End FetcherMetaProps.

Module ListingMore.
Import Fetch CBC CBCSource SourceProps FetcherMetaProps.

Lemma mapM_in {A B} (f : A -> res B) (l : list A) (l' : list B) :
  mapM f l = Ok l' -> forall y, In y l' -> exists x, In x l /\ f x = Ok y.
Proof.
  revert l'. induction l as [|x l IH]; intros l' H y Hy; simpl in H.
  - injection H as <-. contradiction.
  - destruct (f x) as [y0|e] eqn:Hf; simpl in H; [|discriminate].
    destruct (mapM f l) as [ys|e] eqn:Hm; simpl in H; [|discriminate].
    injection H as <-. destruct Hy as [<-|Hy].
    + exists x. split; [left; reflexivity|exact Hf].
    + destruct (IH ys eq_refl y Hy) as (x' & Hx' & Hf'). exists x'. split; [right; exact Hx'|exact Hf'].
Qed.

Lemma unique_from_incl (seen : list string) (items : list Story) (s : Story) :
  In s (unique_from seen items) -> In s items.
Proof.
  revert seen. induction items as [|x items IH]; intros seen Hin; [contradiction|].
  simpl in Hin. destruct (_ && _).
  - destruct Hin as [<-|Hin]; [left; reflexivity|right; exact (IH _ Hin)].
  - right. exact (IH _ Hin).
Qed.

(** What [_unique_ordered_stories] is on a list it would keep whole. *)
Lemma unique_from_keep (seen : list string) (items : list Story) :
  NoDup (map url items) -> (forall s, In s items -> url s <> "" /\ ~ In (url s) seen) ->
  unique_from seen items = items.
Proof.
  revert seen. induction items as [|x items IH]; intros seen Hd Hs; simpl; [reflexivity|].
  simpl in Hd. apply NoDup_cons in Hd as [Hx Hd].
  destruct (Hs x (or_introl eq_refl)) as [Hne Hns].
  rewrite (proj2 (String.eqb_neq _ _) Hne).
  assert (He : existsb (String.eqb (url x)) seen = false).
  { apply not_true_iff_false. intros Ht. apply existsb_exists in Ht as (u & Hu & Heq).
    apply String.eqb_eq in Heq. subst u. contradiction. }
  rewrite He. simpl. f_equal. apply IH; [exact Hd|].
  intros s Hin. destruct (Hs s (or_intror Hin)) as [H1 H2]. split; [exact H1|].
  intros [Heq|H]; [|contradiction].
  apply Hx, list_elem_of_In. rewrite Heq. apply in_map. exact Hin.
Qed.

Lemma unique_from_covers (seen : list string) (items : list Story) (u : string) :
  u <> "" -> In u (map url items) -> In u seen \/ In u (map url (unique_from seen items)).
Proof.
  revert seen. induction items as [|x items IH]; intros seen Hne Hu; [contradiction|].
  simpl. destruct (negb (String.eqb (url x) "") && negb (existsb (String.eqb (url x)) seen)) eqn:Hc.
  - destruct Hu as [<-|Hu]; [right; left; reflexivity|].
    destruct (IH (url x :: seen) Hne Hu) as [[<-|H]|H]; [right; left; reflexivity|left; exact H|].
    right. right. exact H.
  - destruct Hu as [<-|Hu]; [|apply IH; assumption].
    apply andb_false_iff in Hc as [Hc|Hc].
    + apply negb_false_iff, String.eqb_eq in Hc. contradiction.
    + apply negb_false_iff, existsb_exists in Hc as (v & Hv & Heq).
      apply String.eqb_eq in Heq. subst v. left. exact Hv.
Qed.

(** [_unique_ordered_stories] is idempotent, and it drops no url: every
    non-empty url of the input is the url of a kept story. *)
Theorem unique_ordered_stories_idempotent (items : list Story) :
  _unique_ordered_stories (_unique_ordered_stories items) = _unique_ordered_stories items /\
  (forall u, u <> "" -> (In u (map url items) <-> In u (map url (_unique_ordered_stories items)))).
Proof.
  split.
  - apply unique_from_keep; [apply unique_from_nodup|].
    intros s Hs. split; [exact (unique_from_nonempty _ _ _ Hs)|intros []].
  - intros u Hne. split.
    + intros Hu. destruct (unique_from_covers [] items u Hne Hu) as [[]|H]. exact H.
    + intros Hu. apply in_map_iff in Hu as (s & <- & Hs). apply in_map.
      exact (unique_from_incl _ _ _ Hs).
Qed.

(** The conditions [get_sections] checks before adding a discovered
    section. *)
Definition section_ok (allowed : json) (s : Section) : Prop :=
  section_title s <> "" /\
  lower (section_title s) <> "menu" /\ lower (section_title s) <> "search" /\
  str_contains "/lite" (section_url s) = true /\
  str_contains "/lite/story/" (section_url s) = false /\
  (truthy allowed = true -> py_contains allowed (section_title s) = Ok true).

Definition sections_inv (allowed : json) (m : list (string * Section)) : Prop :=
  NoDup (map fst m) /\ forall kv, In kv m -> fst kv = section_title (snd kv) /\ section_ok allowed (snd kv).

Lemma add_sections_inv urljoin allowed (links : list (string * string)) :
  forall m, sections_inv allowed m -> sections_inv allowed (fst (add_sections urljoin allowed links m)).
Proof.
  induction links as [|[raw_href text] links IH]; intros m [Hd Hm]; simpl; [split; assumption|].
  destruct (_abs_url urljoin raw_href) as [href|e]; simpl; [|split; assumption].
  destruct (str_contains "/lite" href) eqn:H1; simpl; [|apply IH; split; assumption].
  destruct (str_contains "/lite/story/" href) eqn:H2; simpl; [apply IH; split; assumption|].
  destruct (String.eqb text "") eqn:H3; simpl; [apply IH; split; assumption|].
  destruct (String.eqb (lower text) "menu") eqn:H4; simpl; [apply IH; split; assumption|].
  destruct (String.eqb (lower text) "search") eqn:H5; simpl; [apply IH; split; assumption|].
  destruct (existsb (fun kv => String.eqb (fst kv) text) m) eqn:H6; simpl;
    [apply IH; split; assumption|].
  destruct (truthy allowed) eqn:H7; simpl.
  - destruct (py_contains allowed text) as [[|]|e] eqn:H8; simpl.
    + apply IH. split.
      * rewrite map_app. apply nodup_snoc; [exact Hd|]. simpl. intros Hin.
        apply in_map_iff in Hin as (kv & Hk & Hin).
        assert (existsb (fun kv => String.eqb (fst kv) text) m = true) as Ht
          by (apply existsb_exists; exists kv; split; [exact Hin|apply String.eqb_eq; exact Hk]).
        congruence.
      * intros kv Hin. apply in_app_iff in Hin as [Hin|[<-|[]]]; [apply Hm, Hin|].
        simpl. split; [reflexivity|].
        apply String.eqb_neq in H3, H4, H5. repeat split; auto.
    + apply IH. split; assumption.
    + split; assumption.
  - apply IH. split.
    + rewrite map_app. apply nodup_snoc; [exact Hd|]. simpl. intros Hin.
      apply in_map_iff in Hin as (kv & Hk & Hin).
      assert (existsb (fun kv => String.eqb (fst kv) text) m = true) as Ht
        by (apply existsb_exists; exists kv; split; [exact Hin|apply String.eqb_eq; exact Hk]).
      congruence.
    + intros kv Hin. apply in_app_iff in Hin as [Hin|[<-|[]]]; [apply Hm, Hin|].
      simpl. split; [reflexivity|].
      apply String.eqb_neq in H3, H4, H5. repeat split; auto. congruence.
Qed.

Lemma sections_page_inv urljoin session_get select_section_links allowed u m m' :
  sections_inv allowed m ->
  sections_page urljoin session_get select_section_links allowed u m = Ok m' ->
  sections_inv allowed m'.
Proof.
  intros Hi. unfold sections_page.
  destruct (fetch session_get u) as [v|e]; simpl; [|discriminate].
  destruct (no_content v); [intros [= <-]; exact Hi|].
  destruct v as [c|]; [|intros [= <-]; exact Hi].
  destruct (select_section_links c) as [links|e]; [|intros [= <-]; exact Hi].
  intros [= <-]. apply add_sections_inv, Hi.
Qed.

(** The sections [CBCSource.get_sections] discovers after "Home" have
    pairwise distinct, non-empty titles other than "menu" and "search" (in
    any case), urls containing "/lite" but not "/lite/story/", and, when the
    configured [sections] value is truthy, titles it contains. *)
Theorem cbc_get_sections_discovered urljoin session_get select_section_links (config : json)
    (l : list Section) :
  get_sections urljoin session_get select_section_links config = Ok l ->
  exists allowed rest,
    dict_get config "sections" JNull = Ok allowed /\
    l = {| section_title := "Home"; section_url := HOME_PAGE_URL |} :: rest /\
    NoDup (map section_title rest) /\ forall s, In s rest -> section_ok allowed s.
Proof.
  unfold get_sections.
  destruct (dict_get config "sections" JNull) as [allowed|e]; simpl; [|discriminate].
  destruct (sections_page _ _ _ allowed HOME_PAGE_URL []) as [m1|e] eqn:H1; simpl; [|discriminate].
  destruct (sections_page _ _ _ allowed SECTIONS_PAGE_URL m1) as [m2|e] eqn:H2; simpl;
    [|discriminate].
  intros [= <-].
  assert (Hi1 : sections_inv allowed m1).
  { apply (sections_page_inv _ _ _ _ _ [] _ (conj NoDup_nil_2 (fun kv H => False_ind _ H)) H1). }
  destruct (sections_page_inv _ _ _ _ _ _ _ Hi1 H2) as [Hd Hm].
  exists allowed, (map snd m2). split; [reflexivity|]. split; [reflexivity|]. split.
  - assert (Hmap : map section_title (map snd m2) = map fst m2).
    { rewrite map_map. apply map_ext_in. intros kv Hin. symmetry. apply (Hm kv Hin). }
    rewrite Hmap. exact Hd.
  - intros s Hs. apply in_map_iff in Hs as (kv & <- & Hin). apply (Hm kv Hin).
Qed.

End ListingMore.

Module StoriesMore.
Import Fetch CBC CBCSource SourceProps ListingMore.

Definition links_example (_ : string) : res (list (string * string)) :=
  Ok [("/lite/news/canada", "Canada"); ("/lite/story/1", "Budget");
      ("/lite/news/canada", "Canada"); ("/lite/menu", "MENU");
      ("https://www.cbc.ca/lite/news/world", "World"); ("/news", "Old site")].

Lemma cbc_get_sections_discovered_witness :
  exists allowed rest,
    dict_get (JDict []) "sections" JNull = Ok allowed /\
    [{| section_title := "Home"; section_url := HOME_PAGE_URL |};
     {| section_title := "Canada"; section_url := "https://www.cbc.ca/lite/news/canada" |};
     {| section_title := "World"; section_url := "https://www.cbc.ca/lite/news/world" |}]
    = {| section_title := "Home"; section_url := HOME_PAGE_URL |} :: rest /\
    NoDup (map section_title rest) /\ forall s, In s rest -> section_ok allowed s.
Proof.
  apply (cbc_get_sections_discovered (fun b u => Ok (b ++ u))
           (fun _ _ => Response 200 "<html>") links_example (JDict [])).
  vm_compute. reflexivity.
Defined.

Lemma mapM_raise {A B} (f : A -> res B) (l : list A) (x : A) (e : exn) :
  In x l -> f x = Raise e -> exists e', mapM f l = Raise e'.
Proof.
  induction l as [|y l IH]; intros Hx Hf; [contradiction|]. simpl.
  destruct Hx as [->|Hx].
  - rewrite Hf. exists e. reflexivity.
  - destruct (f y) as [v|e']; simpl; [|exists e'; reflexivity].
    destruct (IH Hx Hf) as [e'' ->]. exists e''. reflexivity.
Qed.

(** [{b["url"] for b in bookmarks}] runs before the fetch and outside the
    [try]: a bookmark that is not a dict, lacks "url" (KeyError) or has an
    unhashable url makes [CBCSource.get_stories] raise whatever the page.
    With well-formed bookmarks, every failure after it gives the empty
    list: a fetch that returns no content (all attempts failed) or an empty
    body, a page on which selecting the story links raises, and a story
    link whose [_abs_url(href)] raises (e.g. [urljoin]'s [ValueError]);
    and with a session raising only [requests] exceptions [get_stories]
    always returns a list. *)
Theorem cbc_get_stories_errors urljoin session_get select_story_links (section : Section)
    (read_articles : list string) (bookmarks : list json) :
  let gs := get_stories urljoin session_get select_story_links section read_articles
              bookmarks in
  (forall e, mapM bookmark_url bookmarks = Raise e -> gs = Raise e) /\
  (forall bu, mapM bookmark_url bookmarks = Ok bu ->
   (fetch session_get (section_url section) = Ok None -> gs = Ok []) /\
   (fetch session_get (section_url section) = Ok (Some "") -> gs = Ok []) /\
   (forall c e, fetch session_get (section_url section) = Ok (Some c) ->
      select_story_links c = Raise e -> gs = Ok []) /\
   (forall c anchors a e, fetch session_get (section_url section) = Ok (Some c) ->
      select_story_links c = Ok anchors -> In a anchors ->
      _abs_url urljoin (a_href a) = Raise e -> gs = Ok []) /\
   ((forall n, requests_only (session_get (section_url section) n)) -> exists l, gs = Ok l)).
Proof.
  intros gs. unfold gs, get_stories. split.
  - intros e He. rewrite He. reflexivity.
  - intros bu Hb. rewrite Hb. cbn [bind].
    split; [intros Hf; rewrite Hf; reflexivity|].
    split; [intros Hf; rewrite Hf; reflexivity|].
    split; [|split].
    + intros c e Hf Hs. rewrite Hf. cbn [bind].
      destruct (String.eqb c ""); [reflexivity|]. rewrite Hs. reflexivity.
    + intros c anchors a e Hf Hs Ha Hh. rewrite Hf. cbn [bind].
      destruct (String.eqb c ""); [reflexivity|]. rewrite Hs. cbn [bind].
      assert (Hsa : story_of_anchor urljoin read_articles bu a = Raise e).
      { unfold story_of_anchor. rewrite Hh. reflexivity. }
      destruct (mapM_raise _ anchors a e Ha Hsa) as [e' He']. rewrite He'. reflexivity.
    + intros Hreq.
      destruct (fetch_no_raise session_get (section_url section) Hreq) as [v Hv].
      rewrite Hv. cbn [bind]. destruct v as [c|]; [|eauto].
      destruct (String.eqb c ""); [eauto|].
      destruct (_ <-- select_story_links c ;; _); simpl; eauto.
Qed.

Definition anchors_example (_ : string) : res (list story_anchor) :=
  Ok [{| a_href := "/lite/story/1"; a_span := Some "Politics"; a_text := "Politics Budget day";
         a_next_p := Some "What to expect." |}].

Lemma cbc_get_stories_errors_witness :
  get_stories (fun b u => Ok (b ++ u)) (fun _ _ => Response 200 "<html>")
    (fun _ => Ok []) {| section_title := "Home"; section_url := HOME_PAGE_URL |} []
    [JDict [("title", JStr "Budget")]] = Raise KeyError /\
  get_stories (fun _ _ => Raise ValueError) (fun _ _ => Response 200 "<html>")
    anchors_example {| section_title := "Home"; section_url := HOME_PAGE_URL |} []
    [] = Ok [].
Proof.
  split.
  - apply (proj1 (cbc_get_stories_errors (fun b u => Ok (b ++ u))
                    (fun _ _ => Response 200 "<html>") (fun _ => Ok [])
                    {| section_title := "Home"; section_url := HOME_PAGE_URL |} []
                    [JDict [("title", JStr "Budget")]])).
    reflexivity.
  - destruct (proj2 (cbc_get_stories_errors (fun _ _ => Raise ValueError)
                       (fun _ _ => Response 200 "<html>") anchors_example
                       {| section_title := "Home"; section_url := HOME_PAGE_URL |} [] [])
                [] eq_refl) as (_ & _ & _ & H & _).
    apply (H "<html>" (match anchors_example "<html>" with Ok l => l | Raise _ => [] end)
             {| a_href := "/lite/story/1"; a_span := Some "Politics";
                a_text := "Politics Budget day"; a_next_p := Some "What to expect." |}
             ValueError).
    + vm_compute. reflexivity.
    + reflexivity.
    + left. reflexivity.
    + reflexivity.
Defined.

(** Every story [CBCSource.get_stories] returns comes from an anchor of
    the fetched page: its url is the anchor's [_abs_url(href)], its flag the
    anchor's span text and its summary the next paragraph's text; its title
    and url are non-empty, and its [read] and [bookmarked] fields say
    whether the url is among the read articles and the bookmarks' urls. *)
Theorem cbc_get_stories_fields urljoin session_get select_story_links (section : Section)
    (read_articles : list string) (bookmarks : list json) (l : list Story) :
  get_stories urljoin session_get select_story_links section read_articles bookmarks = Ok l ->
  exists bu, mapM bookmark_url bookmarks = Ok bu /\
  forall st, In st l ->
    title st <> "" /\ url st <> "" /\
    read st = existsb (String.eqb (url st)) read_articles /\
    bookmarked st = existsb (fun v => match v with JStr u => String.eqb u (url st)
                                             | _ => false end) bu /\
    exists c anchors a, fetch session_get (section_url section) = Ok (Some c) /\
      select_story_links c = Ok anchors /\ In a anchors /\
      _abs_url urljoin (a_href a) = Ok (url st) /\ flag st = a_span a /\
      summary st = a_next_p a.
Proof.
  unfold get_stories. destruct (mapM bookmark_url bookmarks) as [bu|e]; simpl; [|discriminate].
  intros Hl. exists bu. split; [reflexivity|].
  destruct (fetch session_get (section_url section)) as [[c|]|e] eqn:Hf; simpl in Hl;
    [| |discriminate].
  - destruct (String.eqb c ""); [injection Hl as <-; intros st []|].
    destruct (select_story_links c) as [anchors|e] eqn:Hs; simpl in Hl;
      [|injection Hl as <-; intros st []].
    destruct (mapM (story_of_anchor urljoin read_articles bu) anchors) as [found|e] eqn:Hm;
      simpl in Hl; [|injection Hl as <-; intros st []].
    injection Hl as <-. intros st Hst.
    apply unique_from_incl, in_flat_map in Hst as (o & Ho & Hst).
    destruct o as [st'|]; [|contradiction]. destruct Hst as [<-|[]].
    destruct (mapM_in _ _ _ Hm _ Ho) as (a & Ha & Hsa).
    unfold story_of_anchor in Hsa.
    destruct (_abs_url urljoin (a_href a)) as [href|e] eqn:Hh; simpl in Hsa; [|discriminate].
    destruct (negb _ && negb _) eqn:Hc; [|discriminate].
    injection Hsa as <-. apply andb_true_iff in Hc as [Ht Hu].
    apply negb_true_iff, String.eqb_neq in Ht, Hu. simpl.
    split; [exact Ht|]. split; [exact Hu|]. split; [reflexivity|]. split; [reflexivity|].
    exists c, anchors, a. repeat split; assumption.
  - injection Hl as <-. intros st [].
Qed.

Lemma cbc_get_stories_fields_witness :
  exists bu, mapM bookmark_url [JDict [("url", JStr "https://www.cbc.ca/lite/story/1")]] = Ok bu /\
  forall st, In st [{| title := "Budget day"; url := "https://www.cbc.ca/lite/story/1";
                       flag := Some "Politics"; summary := Some "What to expect.";
                       read := false; bookmarked := true |}] ->
    title st <> "" /\ url st <> "" /\
    read st = existsb (String.eqb (url st)) [] /\
    bookmarked st = existsb (fun v => match v with JStr u => String.eqb u (url st)
                                             | _ => false end) bu /\
    exists c anchors a, fetch (fun _ _ => Response 200 "<html>")
                          (section_url {| section_title := "Home"; section_url := HOME_PAGE_URL |})
                        = Ok (Some c) /\
      anchors_example c = Ok anchors /\ In a anchors /\
      _abs_url (fun b u => Ok (b ++ u)) (a_href a) = Ok (url st) /\ flag st = a_span a /\
      summary st = a_next_p a.
Proof.
  apply (cbc_get_stories_fields (fun b u => Ok (b ++ u)) (fun _ _ => Response 200 "<html>")
           anchors_example {| section_title := "Home"; section_url := HOME_PAGE_URL |} []
           [JDict [("url", JStr "https://www.cbc.ca/lite/story/1")]]).
  vm_compute. reflexivity.
Defined.

End StoriesMore.

Module AbsUrlMore.
Import CBC.

(** [_abs_url] leaves the empty string and every [http://] or [https://]
    URL as it is, and joins any other href onto [DOMAIN_BASE]; so applying
    it twice gives the same URL as once whenever [urljoin] returns an
    [http(s)] URL. *)
Theorem abs_url_idempotent (urljoin : string -> string -> res string) (h u : string) :
  (String.prefix "http://" u || String.prefix "https://" u = true ->
   _abs_url urljoin u = Ok u) /\
  _abs_url urljoin "" = Ok "" /\
  (String.prefix "http://" h || String.prefix "https://" h = false -> h <> "" ->
   _abs_url urljoin h = urljoin DOMAIN_BASE h) /\
  ((forall v, urljoin DOMAIN_BASE h = Ok v ->
      String.prefix "http://" v || String.prefix "https://" v = true) ->
   forall v, _abs_url urljoin h = Ok v -> _abs_url urljoin v = Ok v).
Proof.
  assert (Hfix : forall u, String.prefix "http://" u || String.prefix "https://" u = true ->
                   _abs_url urljoin u = Ok u).
  { intros w Hu. unfold _abs_url, _abs_url_value. destruct w as [|c w]; [reflexivity|].
    simpl truthy. cbn [negb]. rewrite Hu. reflexivity. }
  split; [exact (Hfix u)|]. split; [reflexivity|]. split.
  - intros Hp Hne. unfold _abs_url, _abs_url_value. destruct h as [|c h]; [congruence|].
    simpl truthy. cbn [negb]. rewrite Hp. reflexivity.
  - intros Hj v Hv. unfold _abs_url, _abs_url_value in Hv. destruct h as [|c h].
    + simpl in Hv. injection Hv as <-. reflexivity.
    + simpl truthy in Hv. cbn [negb] in Hv.
      destruct (String.prefix "http://" (String c h) || String.prefix "https://" (String c h))
        eqn:Hp.
      * injection Hv as <-. apply Hfix, Hp.
      * apply Hfix, Hj, Hv.
Qed.

Lemma abs_url_idempotent_witness :
  _abs_url (fun b u => Ok (b ++ u)) "https://www.cbc.ca/lite/story/1"
    = Ok "https://www.cbc.ca/lite/story/1" /\
  _abs_url (fun b u => Ok (b ++ u)) "/lite/story/1" = Ok "https://www.cbc.ca/lite/story/1" /\
  _abs_url (fun b u => Ok (b ++ u)) "https://www.cbc.ca/lite/story/1"
    = Ok "https://www.cbc.ca/lite/story/1".
Proof.
  destruct (abs_url_idempotent (fun b u => Ok (b ++ u)) "/lite/story/1"
              "https://www.cbc.ca/lite/story/1") as (H1 & _ & H3 & H4).
  split; [apply H1; reflexivity|]. split.
  - rewrite (H3 eq_refl ltac:(discriminate)). reflexivity.
  - apply (H4 (fun v Hv => ltac:(injection Hv as <-; reflexivity))). reflexivity.
Defined.

End AbsUrlMore.
